(** * Flasker: OAuth sign-in handlers and project bootstrap

    A shallow embedding of [flasker/core/oauth.py] and [flasker/project.py].

    - Python byte strings are [string]; a unicode string (the text of a
      request) is held as its UTF-8 bytes; a [dict] used as a map is a
      [gmap].
    - Handlers run in a state-and-exception monad over an explicit world:
      an exception keeps the effects that happened before it was raised,
      as in Python.
    - The identity provider, the file system and the import machinery are
      external collaborators and are taken as parameters. *)

From Stdlib Require Import ZArith Ascii String.
From stdpp Require Import gmap strings list fin_maps.

Local Open Scope Z_scope.

(** ** Exceptions and the state/exception monad *)

Inductive Exn :=
  | KeyError (key : string)
  | ProjectImportError (msg : string)
  | AttributeError (attr : string)
  | UnicodeEncodeError
  | ExternalError (what : string).

Inductive Res (A : Type) :=
  | Ok (a : A)
  | Raise (e : Exn).
Arguments Ok {A} a.
Arguments Raise {A} e.

Definition M (S A : Type) : Type := S → Res A * S.

Definition ret {S A} (a : A) : M S A := λ s, (Ok a, s).

Definition raise {S A} (e : Exn) : M S A := λ s, (Raise e, s).

Definition bind {S A B} (c : M S A) (k : A → M S B) : M S B :=
  λ s, match c s with
       | (Ok a, s') => k a s'
       | (Raise e, s') => (Raise e, s')
       end.

Definition get_state {S} : M S S := λ s, (Ok s, s).

Definition modify {S} (f : S → S) : M S unit := λ s, (Ok tt, f s).

Definition lift_res {S A} (r : Res A) : M S A := λ s, (r, s).

Notation "'let!' x ':=' c 'in' k" := (bind c (λ x, k))
  (at level 10, x name, c at level 100, k at level 200).
Notation "'do!' c 'in' k" := (bind c (λ _, k))
  (at level 10, c at level 100, k at level 200).

(** ** Python string primitives *)

(** [c in s] for a one-character [c]. *)
Fixpoint char_in (c : ascii) (s : string) : bool :=
  match s with
  | EmptyString => false
  | String d s' => if decide (c = d) then true else char_in c s'
  end.

(** [s.lstrip()], [s.rstrip()] and [s.strip()]: whitespace is
    space, tab, newline, vertical tab, form feed and carriage return. *)
Fixpoint lstrip (s : string) : string :=
  match s with
  | EmptyString => EmptyString
  | String c s' => if Ascii.is_space c then lstrip s' else s
  end.

Definition rstrip (s : string) : string := String.rev (lstrip (String.rev s)).

Definition strip (s : string) : string := rstrip (lstrip s).

(** [s.split(sep)] for a one-character separator; [cur] holds the characters
    of the current field, last one first. *)
Fixpoint split_go (sep : ascii) (cur : string) (s : string) : list string :=
  match s with
  | EmptyString => [String.rev cur]
  | String c s' =>
      if decide (c = sep) then String.rev cur :: split_go sep EmptyString s'
      else split_go sep (String c cur) s'
  end.

Definition split (sep : ascii) (s : string) : list string :=
  split_go sep EmptyString s.

(** [s.replace(a, b)] for one-character [a] and [b]. *)
Fixpoint replace_char (a b : ascii) (s : string) : string :=
  match s with
  | EmptyString => EmptyString
  | String c s' => String (if decide (c = a) then b else c) (replace_char a b s')
  end.

(** [sep.join(l)]. *)
Fixpoint join (sep : string) (l : list string) : string :=
  match l with
  | [] => ""
  | [x] => x
  | x :: l' => x +:+ sep +:+ join sep l'
  end.

(** [s.lower()] on ASCII letters. *)
Definition lower_char (c : ascii) : ascii :=
  let n := N_of_ascii c in
  if ((65 <=? n) && (n <=? 90))%N then ascii_of_N (n + 32) else c.

Fixpoint lower (s : string) : string :=
  match s with
  | EmptyString => EmptyString
  | String c s' => String (lower_char c) (lower s')
  end.

(** ** [urllib.quote], [urllib.quote_plus] and [urllib.urlencode] *)

Definition always_safe : string :=
  "ABCDEFGHIJKLMNOPQRSTUVWXYZabcdefghijklmnopqrstuvwxyz0123456789_.-".

Definition hex_digit (n : N) : ascii :=
  match n with
  | 0 => "0" | 1 => "1" | 2 => "2" | 3 => "3" | 4 => "4" | 5 => "5"
  | 6 => "6" | 7 => "7" | 8 => "8" | 9 => "9" | 10 => "A" | 11 => "B"
  | 12 => "C" | 13 => "D" | 14 => "E" | _ => "F"
  end%N%char.

(** ['%{:02X}'.format(i)] *)
Definition percent_hex (c : ascii) : string :=
  let n := N_of_ascii c in
  String "%" (String (hex_digit (n / 16)) (String (hex_digit (n mod 16)) "")).

(** One entry of [_safe_map], updated with the caller's [safe] characters. *)
Definition quoter (safe : string) (c : ascii) : string :=
  if char_in c (always_safe +:+ safe) then String c "" else percent_hex c.

Fixpoint quote (s safe : string) : string :=
  match s with
  | EmptyString => EmptyString
  | String c s' => quoter safe c +:+ quote s' safe
  end.

Definition quote_plus (s : string) : string :=
  if char_in " " s then replace_char " " "+" (quote s " ")
  else quote s "".

(** Whether a text is pure ASCII.  A unicode string is held as its UTF-8
    bytes, so it is ASCII exactly when every byte is below 128. *)
Fixpoint is_ascii (s : string) : bool :=
  match s with
  | EmptyString => true
  | String c s' => (N_of_ascii c <? 128)%N && is_ascii s'
  end.

(** A Python value that reaches [str()]: [None], a byte string, or a unicode
    string. *)
Inductive pyval :=
  | PyNone
  | PyStr (s : string)
  | PyUnicode (s : string).

(** [str(v)] in Python 2: a unicode string is encoded with the ASCII codec,
    which raises on any other character. *)
Definition py_str (v : pyval) : Res string :=
  match v with
  | PyNone => Ok "None"
  | PyStr s => Ok s
  | PyUnicode s => if is_ascii s then Ok s else Raise UnicodeEncodeError
  end.

(** [urlencode(query)] without [doseq], on the items of the dict: for each
    item in turn, [quote_plus(str(k)) + '=' + quote_plus(str(v))]; the keys
    here are byte strings. *)
Definition urlencode_item (kv : string * pyval) : Res string :=
  match py_str kv.2 with
  | Ok v => Ok (quote_plus kv.1 +:+ "=" +:+ quote_plus v)
  | Raise e => Raise e
  end.

Fixpoint urlencode_items (items : list (string * pyval)) : Res (list string) :=
  match items with
  | [] => Ok []
  | kv :: items' =>
      match urlencode_item kv with
      | Raise e => Raise e
      | Ok x =>
          match urlencode_items items' with
          | Raise e => Raise e
          | Ok l => Ok (x :: l)
          end
      end
  end.

Definition urlencode (items : list (string * pyval)) : Res string :=
  match urlencode_items items with
  | Ok l => Ok (join "&" l)
  | Raise e => Raise e
  end.

(** [dict(pairs)]: a later pair replaces an earlier one with the same key. *)
Definition dict_of_items {V} (l : list (string * V)) : gmap string V :=
  foldl (λ m kv, <[kv.1 := kv.2]> m) ∅ l.

(** ** [flasker/core/oauth.py] *)

(** The [OAuth] class constants. *)
Definition ENDPOINT_get_token_or_code : string :=
  "https://accounts.google.com/o/oauth2/auth".
Definition ENDPOINT_validate_token : string :=
  "https://www.googleapis.com/oauth2/v1/tokeninfo".
Definition ENDPOINT_get_user_info : string :=
  "https://www.googleapis.com/oauth2/v2/userinfo".
Definition SCOPE_email : string :=
  "https://www.googleapis.com/auth/userinfo.email".
Definition RESPONSE_TYPE : string := "token".

(** [class User]: the only attribute is [id]. *)
Record User := mkUser { user_id : string }.

Global Instance User_eq_dec : EqDecision User.
Proof. solve_decision. Defined.

(** The part of a Flask request the handlers read.  The values of
    [request.args] and [request.url_root] are unicode strings: werkzeug
    decodes them. *)
Record Request := mkRequest {
  args : gmap string string;
  url_root : string;
}.

Inductive Level := DEBUG | INFO | WARN.

(** What a handler does to the outside, in order. *)
Inductive Event :=
  | AppLog (lvl : Level) (msg : string)
  | UserLog (u : User) (lvl : Level) (msg : string)
  | HttpGet (url : string) (headers : list (string * string))
  | LoginUser (u : User)
  | LogoutUser.

(** The process state the handlers act on: [OAuth.CLIENT_ID], the class-level
    registry [User.__all__], the login session ([current_user], [None] when
    anonymous) and the effects so far. *)
Record World := mkWorld {
  client_id : pyval;
  all_users : gmap string User;
  current_user : option User;
  trace : list Event;
}.

(** A decoded JSON object with string members. *)
Abbreviation Json := (gmap string string).

(** What a handler returns to Flask. *)
Inductive Response :=
  | RenderTemplate (name : string) (values : gmap string string)
  | Redirect (location : string).

Definition emit (e : Event) : M World unit :=
  modify (λ w, mkWorld (client_id w) (all_users w) (current_user w)
                       (trace w ++ [e])).

Definition set_current_user (u : option User) : M World unit :=
  modify (λ w, mkWorld (client_id w) (all_users w) u (trace w)).

(** [d[key]] on a dict: [KeyError] when the key is missing.  On
    [request.args] the error is werkzeug's [BadRequestKeyError], a
    [KeyError]. *)
Definition getitem {S V} (d : gmap string V) (key : string) : M S V :=
  match d !! key with
  | Some v => ret v
  | None => raise (KeyError key)
  end.

(** [current_app.logger.debug] and [current_app.logger.warn]. *)
Definition logger_debug (msg : string) : M World unit := emit (AppLog DEBUG msg).
Definition logger_warn (msg : string) : M World unit := emit (AppLog WARN msg).

(** Modelled from the spec: [Loggable.info] of [flasker/util.py], which is
    not among the sources; the spec has it emit an audit log entry for the
    user, through the application logger ([User.__logger__]). *)
Definition user_info_log (u : User) (msg : string) : M World unit :=
  emit (UserLog u INFO msg).

(** [login_user] and [logout_user] of the login extension. *)
Definition login_user (u : User) : M World unit :=
  do! emit (LoginUser u) in set_current_user (Some u).

Definition logout_user : M World unit :=
  do! emit LogoutUser in set_current_user None.

Definition get_params (req : Request) (w : World) : gmap string pyval :=
  let state :=
    match args req !! "next" with
    | Some v => PyUnicode v
    | None => PyStr "/"
    end in
  dict_of_items [
    ("scope", PyStr SCOPE_email);
    ("redirect_uri", PyUnicode (url_root req +:+ "oauth2callback"));
    ("response_type", PyStr RESPONSE_TYPE);
    ("state", state);
    ("client_id", client_id w)
  ].

(** The dict is iterated in the map's order; CPython's order depends on the
    platform's string hash, and the theorems hold for any order.  The call
    raises when [urlencode] does. *)
Definition get_google_login_url (req : Request) (w : World) : Res string :=
  match urlencode (map_to_list (get_params req w)) with
  | Ok query => Ok (ENDPOINT_get_token_or_code +:+ "?" +:+ query)
  | Raise e => Raise e
  end.

(** [User.get_from_id], on the class-level registry [User.__all__]. *)
Definition User_get_from_id (registry : gmap string User) (id : string)
  : option User :=
  match registry !! id with
  | Some u => Some u
  | None => None
  end.

Section Handlers.

(** [loads(urlopen(Request(url, headers=headers)).read())]: the identity
    provider's answer to a GET, decoded; [Raise] when the call or the
    decoding raises. *)
Variable provider : string → list (string * string) → Res Json.

Definition urlopen_json (url : string) (headers : list (string * string))
  : M World Json :=
  do! emit (HttpGet url headers) in lift_res (provider url headers).

Definition validate_token (token : string) : M World bool :=
  let url := ENDPOINT_validate_token +:+ "?access_token=" +:+ token in
  let! token_info := urlopen_json url [] in
  match token_info !! "error" with
  | Some _ => ret false
  | None => ret true
  end.

Definition get_user_info_from_token (token : string) : M World Json :=
  let url := ENDPOINT_get_user_info in
  let headers := [("Authorization", "Bearer " +:+ token)] in
  urlopen_json url headers.

(** The dict [values] of a handler and
    [render_template('sign_in_out.html', **values)]. *)
Definition render_sign_in_out (header color : string) (req : Request)
  : M World Response :=
  let! w := get_state in
  let! sign_in_url := lift_res (get_google_login_url req w) in
  ret (RenderTemplate "sign_in_out.html"
         (dict_of_items [("header", header); ("color", color);
                         ("sign_in_url", sign_in_url)])).

Definition sign_in (req : Request) : M World Response :=
  render_sign_in_out "Welcome!" "primary" req.

Definition catch_token (req : Request) : M World Response :=
  let! token := getitem (args req) "access_token" in
  do! logger_debug "Successfully caught access token." in
  let! valid := validate_token token in
  if negb valid then
    do! logger_warn "Access token is invalid." in
    render_sign_in_out "Invalid token" "danger" req
  else
    do! logger_debug "Access token is valid." in
    let! user_infos := get_user_info_from_token token in
    do! logger_debug "Gathered user infos successfully." in
    let! email := getitem user_infos "email" in
    let! w := get_state in
    let user := User_get_from_id (all_users w) email in
    (* [if user:] a [User] instance is true, [None] is false *)
    match user with
    | Some u =>
        do! login_user u in
        do! user_info_log u "Signed in." in
        let! state := getitem (args req) "state" in
        ret (Redirect state)
    | None =>
        let! email := getitem user_infos "email" in
        do! logger_warn (email +:+ " tried to sign in.") in
        render_sign_in_out "Unauthorized" "warning" req
    end.

(** [current_user.is_authenticated()] holds of a [User] (a [UserMixin])
    and not of the anonymous user. *)
Definition sign_out (req : Request) : M World Response :=
  let! w := get_state in
  do! (match current_user w with
       | Some u =>
           do! user_info_log u "Signed out." in
           logout_user
       | None => ret tt
       end) in
  render_sign_in_out "Goodbye" "success" req.

End Handlers.

(** [User.populate] and the module-level call that feeds it. *)
Definition authorized_emails (value : string) : list string :=
  strip <$> filter (λ email, strip email ≠ "") (split "," value).

Definition User_populate (emails : list string) : gmap string User :=
  dict_of_items ((λ email, (email, mkUser email)) <$> emails).

(** ** [flasker/project.py] *)

(** A configuration value after [convert]. *)
Inductive Value :=
  | VBool (b : bool)
  | VInt (n : Z)
  | VStr (s : string).

Global Instance Value_eq_dec : EqDecision Value.
Proof. solve_decision. Defined.

(** Python truth value: [False], [0] and [''] are false. *)
Definition truthy (v : Value) : bool :=
  match v with
  | VBool b => b
  | VInt n => negb (n =? 0)
  | VStr s => negb (bool_decide (s = ""))
  end.

Definition is_digit (c : ascii) : bool :=
  let n := N_of_ascii c in ((48 <=? n) && (n <=? 57))%N.

Fixpoint all_digits (s : string) : bool :=
  match s with
  | EmptyString => true
  | String c s' => is_digit c && all_digits s'
  end.

Fixpoint int_of_digits (acc : Z) (s : string) : Z :=
  match s with
  | EmptyString => acc
  | String c s' => int_of_digits (10 * acc + (Z.of_N (N_of_ascii c) - 48)) s'
  end.

(** Modelled from the spec: [convert] of [flasker/util.py], which is not
    among the sources: case-insensitive true/false become booleans, digit
    strings become integers, anything else stays a string. *)
Definition convert (v : string) : Value :=
  if bool_decide (lower v = "true") then VBool true
  else if bool_decide (lower v = "false") then VBool false
  else if negb (bool_decide (v = "")) && all_digits v then VInt (int_of_digits 0 v)
  else VStr v.

Abbreviation Config := (gmap string (gmap string Value)).

(** The class attribute [Project.config] as compiled in. *)
Definition default_config : Config :=
  dict_of_items [
    ("PROJECT", dict_of_items [
       ("NAME", VStr ""); ("DOMAIN", VStr ""); ("SUBDOMAIN", VStr "");
       ("MODULES", VStr ""); ("FLASK_ROOT_FOLDER", VStr "app");
       ("FLASK_STATIC_FOLDER", VStr "static");
       ("FLASK_TEMPLATE_FOLDER", VStr "templates");
       ("COMMIT_ON_TEARDOWN", VBool true)]);
    ("ENGINE", dict_of_items [("URL", VStr "sqlite://")]);
    ("FLASK", dict_of_items [("SECRET_KEY", VStr "a_default_unsafe_key")]);
    ("CELERY", dict_of_items [
       ("BROKER_URL", VStr "redis://");
       ("CELERY_RESULT_BACKEND", VStr "redis://");
       ("CELERY_SEND_EVENTS", VBool true)])
  ].

(** A value stored in an instance [__dict__]. *)
Inductive Attr :=
  | ANone
  | ABool (b : bool)
  | AStr (s : string)
  | AVal (v : Value)
  | AEngine (handle : nat)
  | ASession (engine : nat)
  | AQueryClass
  | AHooks (funcs : list nat).

(** The interpreter state [project.py] acts on.

    - [dicts]: the heap of attribute dicts; cell [0] is the class attribute
      [Project.__state], every other cell is the dict an instance was
      created with.
    - [objects]: for each [Project] instance, in creation order, the cell its
      [__dict__] is bound to.
    - [config]: the class attribute [Project.config], mutated in place.
    - [current_project]: [_local_storage._current_project], per thread.
    - [sys_path]: what has been appended to [sys.path]. *)
Record Interp := mkInterp {
  dicts : list (gmap string Attr);
  objects : list nat;
  config : gmap string (gmap string Value);
  current_project : gmap nat nat;
  sys_path : list string;
}.

Definition state_cell : nat := 0%nat.

Definition initial_interp : Interp :=
  mkInterp [∅] [] default_config ∅ [].

Definition set_dicts (f : list (gmap string Attr) → list (gmap string Attr))
  (it : Interp) : Interp :=
  mkInterp (f (dicts it)) (objects it) (config it) (current_project it)
           (sys_path it).

Definition set_objects (f : list nat → list nat) (it : Interp) : Interp :=
  mkInterp (dicts it) (f (objects it)) (config it) (current_project it)
           (sys_path it).

Definition set_config (f : gmap string (gmap string Value) →
                           gmap string (gmap string Value))
  (it : Interp) : Interp :=
  mkInterp (dicts it) (objects it) (f (config it)) (current_project it)
           (sys_path it).

Definition set_current_project (f : gmap nat nat → gmap nat nat)
  (it : Interp) : Interp :=
  mkInterp (dicts it) (objects it) (config it) (f (current_project it))
           (sys_path it).

Definition set_sys_path (f : list string → list string) (it : Interp)
  : Interp :=
  mkInterp (dicts it) (objects it) (config it) (current_project it)
           (f (sys_path it)).

(** The [__dict__] of an instance. *)
Definition instance_dict (it : Interp) (self : nat) : gmap string Attr :=
  default ∅ (objects it !! self ≫= λ cell, dicts it !! cell).

(** Object creation: a new instance with an empty [__dict__] of its own. *)
Definition new_object : M Interp nat :=
  λ it, (Ok (length (objects it)),
         set_objects (λ os, os ++ [length (dicts it)])
           (set_dicts (λ ds, ds ++ [∅]) it)).

(** [self.__dict__ = cell] *)
Definition bind_dict (self cell : nat) : M Interp unit :=
  modify (set_objects (λ os, <[self := cell]> os)).

(** [self.name = a] *)
Definition setattr (self : nat) (name : string) (a : Attr) : M Interp unit :=
  λ it, match objects it !! self with
        | Some cell => (Ok tt, set_dicts (alter (<[name := a]>) cell) it)
        | None => (Raise (AttributeError name), it)
        end.

(** [self.name], for an attribute kept in the instance dict. *)
Definition getattr (self : nat) (name : string) : M Interp Attr :=
  λ it, match instance_dict it self !! name with
        | Some a => (Ok a, it)
        | None => (Raise (AttributeError name), it)
        end.

(** [self.__registered]: the name is mangled to [_Project__registered]; the
    class attribute [False] is found when the instance dict has none. *)
Definition registered_of (d : gmap string Attr) : bool :=
  match d !! "_Project__registered" with
  | Some (ABool b) => b
  | _ => false
  end.

Definition get_registered (self : nat) : M Interp bool :=
  λ it, (Ok (registered_of (instance_dict it self)), it).

(** [x or y] on configuration values. *)
Definition value_or {S} (x : Value) (y : M S Value) : M S Value :=
  if truthy x then ret x else y.

(** [v.lower()] and [v.split(',')]: only a string has the method. *)
Definition value_lower {S} (v : Value) : M S string :=
  match v with
  | VStr s => ret (lower s)
  | _ => raise (AttributeError "lower")
  end.

Definition value_split {S} (v : Value) : M S (list string) :=
  match v with
  | VStr s => ret (split "," s)
  | _ => raise (AttributeError "split")
  end.

(** [sub(r'\W+', '_', s)]: every maximal run of characters other than
    letters, digits and the underscore becomes one underscore. *)
Definition is_word (c : ascii) : bool :=
  let n := N_of_ascii c in
  ((48 <=? n) && (n <=? 57) || (65 <=? n) && (n <=? 90) ||
   (97 <=? n) && (n <=? 122) || (n =? 95))%N.

Fixpoint sub_nonword_go (in_run : bool) (s : string) : string :=
  match s with
  | EmptyString => EmptyString
  | String c s' =>
      if is_word c then String c (sub_nonword_go false s')
      else if in_run then sub_nonword_go true s'
      else String "_" (sub_nonword_go true s')
  end.

Definition sub_nonword (s : string) : string := sub_nonword_go false s.

(** [for x in l: f(x)] *)
Fixpoint for_each {S A} (l : list A) (f : A → M S unit) : M S unit :=
  match l with
  | [] => ret tt
  | x :: l' => do! f x in for_each l' f
  end.

(** One turn of the merge loop of [Project.__init__]:
    [self.config[key].update(config[key])] when the section is known,
    [self.config[key] = config[key]] otherwise. *)
Definition merge_section (cfg : gmap string (gmap string Value))
  (kv : string * gmap string Value) : gmap string (gmap string Value) :=
  match cfg !! kv.1 with
  | Some known => <[kv.1 := kv.2 ∪ known]> cfg
  | None => <[kv.1 := kv.2]> cfg
  end.

Definition merge_config (cfg parsed : gmap string (gmap string Value))
  : gmap string (gmap string Value) :=
  foldl merge_section cfg (map_to_list parsed).

(** What [open] and [SafeConfigParser.readfp] make of a path. *)
Inductive ConfigFile :=
  | Unreadable
  | Malformed (what : string)
  | Sections (secs : gmap string (gmap string string)).

Definition no_path_message : string :=
  "Project instantiation outside the Flasker " +:+
  "command line tool requires a configuration " +:+
  "file path.".

(** The dict [conf] of [_parse_config]: every value of every section of the
    parser, converted. *)
Definition convert_sections (secs : gmap string (gmap string string))
  : gmap string (gmap string Value) :=
  (λ items : gmap string string, convert <$> items) <$> secs.

Section Project.

(** The collaborators outside the module: the file system and the INI parser
    ([read_config]), [os.path] ([abspath], [dirname], [splitext(p)[0]] and
    [sep]), [__import__], SQLAlchemy's [create_engine] and the calling of a
    registered hook.  An import or a hook that raises is [Raise]; what the
    imported module's own code does to this module's state is not modelled.
    [dict_items] is the order in which a dict hands out its items
    ([d.items()]): in CPython it follows the hash slots, and it is left
    open here. *)
Variable read_config : string → ConfigFile.
Variable os_abspath : string → string.
Variable os_dirname : string → string.
Variable os_splitext_root : string → string.
Variable os_sep : ascii.
Variable import_module : string → Res unit.
Variable create_engine : Value → gmap string Value → Res nat.
Variable call_hook : nat → Res unit.
Variable dict_items : gmap string Value → list (string * Value).

Definition _parse_config (config_path : string) : Res Config :=
  match read_config config_path with
  | Unreadable =>
      Raise (ProjectImportError
               ("Unable to parse configuration file at " +:+ config_path +:+ "."))
  | Malformed what => Raise (ExternalError what)
  | Sections secs =>
      let conf := convert_sections secs in
      match conf !! "PROJECT" with
      | None => Raise (KeyError "PROJECT")
      | Some project =>
          match project !! "NAME" with
          | None => Raise (KeyError "NAME")
          | Some name =>
              if negb (truthy name)
              then Raise (ProjectImportError "Missing project name.")
              else Ok conf
          end
      end
  end.

Definition _setup_database_connection (self : nat) : M Interp unit :=
  let! it := get_state in
  let! engine := getitem (config it) "ENGINE" in
  let engine_ops : gmap string Value :=
    dict_of_items ((λ kv, (lower kv.1, kv.2)) <$> dict_items engine) in
  let! url := getitem engine_ops "url" in
  let! handle := lift_res (create_engine url (delete "url" engine_ops)) in
  do! setattr self "_engine" (AEngine handle) in
  let! _ := getattr self "_query_class" in
  setattr self "session" (ASession handle).

Definition _make (self : nat) : M Interp unit :=
  do! for_each ["flask"; "celery"]
        (λ name, lift_res (import_module ("flasker.core." +:+ name))) in
  let! it := get_state in
  let! project := getitem (config it) "PROJECT" in
  let! modules := getitem project "MODULES" in
  (* [.split(',') or []]: the result of [split] is never empty *)
  let! project_modules := value_split modules in
  do! for_each project_modules (λ name, lift_res (import_module (strip name))) in
  do! _setup_database_connection self in
  let! hooks := getattr self "_before_startup" in
  match hooks with
  | AHooks funcs => for_each funcs (λ func, lift_res (call_hook func))
  | _ => ret tt
  end.

(** The registration step of [Project.__init__]: what runs under
    [if not self.__registered:] once a configuration path is given. *)
Definition Project_register (self : nat) (config_path : string) (make : bool)
  : M Interp unit :=
  let! parsed := lift_res (_parse_config config_path) in
  do! modify (set_config (λ cfg, merge_config cfg parsed)) in
  do! setattr self "root_dir" (AStr (os_dirname (os_abspath config_path))) in
  let! it := get_state in
  let! project := getitem (config it) "PROJECT" in
  let! domain_option := getitem project "DOMAIN" in
  let! domain :=
    value_or domain_option
      (let! name := getitem project "NAME" in
       let! lowered := value_lower name in
       ret (VStr (sub_nonword lowered))) in
  do! setattr self "domain" (AVal domain) in
  let! subdomain_option := getitem project "SUBDOMAIN" in
  let! subdomain :=
    value_or subdomain_option
      (ret (VStr (replace_char os_sep "-" (os_splitext_root config_path)))) in
  do! setattr self "subdomain" (AVal subdomain) in
  do! modify (set_sys_path
                (λ path, path ++ [os_dirname (os_abspath config_path)])) in
  do! setattr self "flask" ANone in
  do! setattr self "celery" ANone in
  do! setattr self "session" ANone in
  do! setattr self "_engine" ANone in
  do! setattr self "_query_class" AQueryClass in
  do! setattr self "_before_startup" (AHooks []) in
  do! setattr self "_Project__registered" (ABool true) in
  if make then _make self else ret tt.

(** [Project.__init__], run by thread [tid] on a newly created instance;
    the result is the instance. *)
Definition Project_init (tid : nat) (config_path : option string) (make : bool)
  : M Interp nat :=
  let! self := new_object in
  do! bind_dict self state_cell in
  do! modify (set_current_project (<[tid := self]>)) in
  let! is_registered := get_registered self in
  do! (if negb is_registered then
         match config_path with
         | None => raise (ProjectImportError no_path_message)
         | Some config_path => Project_register self config_path make
         end
       else ret tt) in
  ret self.

(** [_get_current_project]: an instance is always true, so [or] falls
    through to [Project()] only when the thread has none. *)
Definition _get_current_project (tid : nat) : M Interp nat :=
  let! it := get_state in
  match current_project it !! tid with
  | Some self => ret self
  | None => Project_init tid None true
  end.

(** A call made to the module from outside. *)
Inductive Call :=
  | CallProject (tid : nat) (config_path : option string) (make : bool)
  | CallCurrent (tid : nat).

Definition run_call (c : Call) (it : Interp) : Interp :=
  match c with
  | CallProject tid config_path make => (Project_init tid config_path make it).2
  | CallCurrent tid => (_get_current_project tid it).2
  end.

(** The states a process can be in when its calls are made one after the
    other: the state at import time, followed by any calls, whether they
    return or raise.  Constructions that overlap in time are not among them:
    the code takes no lock between its test of the flag and the assignment
    that sets it. *)
Definition run_calls (cs : list Call) : Interp :=
  foldl (λ it c, run_call c it) initial_interp cs.

End Project.

(** The module-level statement of [oauth.py] that fills the registry from
    [pj.config['PROJECT']['AUTHORIZED_EMAILS']]. *)
Definition populate_from_config (cfg : gmap string (gmap string Value))
  : Res (gmap string User) :=
  match cfg !! "PROJECT" with
  | None => Raise (KeyError "PROJECT")
  | Some project =>
      match project !! "AUTHORIZED_EMAILS" with
      | None => Raise (KeyError "AUTHORIZED_EMAILS")
      | Some (VStr value) => Ok (User_populate (authorized_emails value))
      | Some _ => Raise (AttributeError "split")
      end
  end.

(** ** Observations used in the statements *)

(** A session is created by [login_user] and by nothing else. *)
Definition is_login (e : Event) : bool :=
  match e with
  | LoginUser _ => true
  | _ => false
  end.

(** A round trip to the identity provider. *)
Definition is_provider_call (e : Event) : bool :=
  match e with
  | HttpGet _ _ => true
  | _ => false
  end.

(** The world after a handler: the session it leaves and the events it
    added; the client id and the user registry are never written. *)
Definition extend (w : World) (session : option User) (evs : list Event)
  : World :=
  mkWorld (client_id w) (all_users w) session (trace w ++ evs).

(** The sign-in prompt: the template of [sign_in], with a header, a color and
    an authorization URL. *)
Definition sign_in_prompt (header color sign_in_url : string) : Response :=
  RenderTemplate "sign_in_out.html"
    (dict_of_items [("header", header); ("color", color);
                    ("sign_in_url", sign_in_url)]).

(** What a handler that renders the prompt answers: the prompt with the
    authorization URL of this request, or the exception of building it. *)
Definition prompt_or_raise (header color : string) (req : Request) (w : World)
  : Res Response :=
  match get_google_login_url req w with
  | Ok sign_in_url => Ok (sign_in_prompt header color sign_in_url)
  | Raise e => Raise e
  end.

(** [all(p(c) for c in s)] *)
Fixpoint all_chars (p : ascii → bool) (s : string) : bool :=
  match s with
  | EmptyString => true
  | String c s' => p c && all_chars p s'
  end.

(** A URL-encoded value is made of letters, digits, [_.-], the percent sign
    of an escape and the plus sign that stands for a space. *)
Definition url_encoded (s : string) : Prop :=
  all_chars (λ c, char_in c (always_safe +:+ "%+")) s = true.

(** One item of a query string: what [urlencode] makes of a key and of the
    [str] of its value. *)
Definition encoded_item (k v : string) : string :=
  quote_plus k +:+ "=" +:+ quote_plus v.


(** [cfg[section][key]] when both exist. *)
Definition lookup2 (cfg : gmap string (gmap string Value)) (section key : string)
  : option Value :=
  cfg !! section ≫= λ items, items !! key.

(** The shared dict [Project.__state] and its registration flag. *)
Definition state_dict (it : Interp) : gmap string Attr :=
  default ∅ (dicts it !! state_cell).

Definition registered (it : Interp) : bool := registered_of (state_dict it).


(** The encoding of one character by [quote_plus], and of a string
    character by character. *)
Definition plus_quoter (c : ascii) : string :=
  if decide (c = " "%char) then "+" else quoter "" c.

Fixpoint plus_quote (s : string) : string :=
  match s with
  | EmptyString => EmptyString
  | String c s' => plus_quoter c +:+ plus_quote s'
  end.

(** What the reader of a query string does with a value ([unquote_plus] of
    the same library; the repository does not call it): a plus sign is a
    space and a percent sign starts a two-digit escape.  It is here to state
    that the encoding loses nothing. *)
Definition hex_value (c : ascii) : N :=
  let n := N_of_ascii c in
  (if 65 <=? n then n - 55 else n - 48)%N.

Definition unhex (h l : ascii) : ascii :=
  ascii_of_N (16 * hex_value h + hex_value l).

Fixpoint unquote_plus (s : string) : string :=
  match s with
  | EmptyString => EmptyString
  | String c s' =>
      if decide (c = "+"%char) then String " " (unquote_plus s')
      else if decide (c = "%"%char) then
        match s' with
        | String h (String l s'') => String (unhex h l) (unquote_plus s'')
        | _ => String c (unquote_plus s')
        end
      else String c (unquote_plus s')
  end.

(** The state in which [Project.__init__] reaches its test of
    [self.__registered]: the new instance is bound to the shared dict and is
    the thread's current project; the dict it was created with is garbage. *)
Definition enter (tid : nat) (it : Interp) : Interp :=
  mkInterp (dicts it ++ [∅]) (objects it ++ [state_cell]) (config it)
           (<[tid := length (objects it)]> (current_project it))
           (sys_path it).

(** What the steps of the registration keep, apart from the attributes they
    set: the instances, the current projects, the class-level configuration,
    the registration flag and [sys.path]. *)
Definition phase (os : list nat) (cur : gmap nat nat)
    (cfg : gmap string (gmap string Value)) (flag : bool) (path : list string)
    (it : Interp) : Prop :=
  objects it = os ∧ current_project it = cur ∧ config it = cfg
  ∧ (0 < length (dicts it))%nat ∧ registered it = flag ∧ sys_path it = path.


(** ** Reasoning about monadic code *)

(** [hoare P c Q]: from a state where [P] holds, [c] ends, returning or
    raising, with a result and a state related by [Q]. *)
Definition hoare {S A} (P : S → Prop) (c : M S A) (Q : Res A → S → Prop)
  : Prop :=
  ∀ s, P s → Q (c s).1 (c s).2.

(** [steady P c]: [c] returns, and keeps [P]. *)
Definition steady {S A} (P : S → Prop) (c : M S A) : Prop :=
  hoare P c (λ r s, (∃ a, r = Ok a) ∧ P s).

(** [keeps P c]: [c] keeps [P], whether it returns or raises. *)
Definition keeps {S A} (P : S → Prop) (c : M S A) : Prop :=
  hoare P c (λ _ s, P s).

(** [pure c]: [c] leaves the state alone. *)
Definition pure {S A} (c : M S A) : Prop := ∀ s, (c s).2 = s.

(** ** Concrete inputs *)

(** A provider that knows two live tokens, [tok-a] of a@x.com and [tok-m] of
    m@y.org, and answers anything else with an error. *)
Definition demo_provider (url : string) (headers : list (string * string))
  : Res Json :=
  if decide (url = ENDPOINT_validate_token +:+ "?access_token=tok-a")
  then Ok (dict_of_items [("audience", "client-1")])
  else if decide (url = ENDPOINT_validate_token +:+ "?access_token=tok-m")
  then Ok (dict_of_items [("audience", "client-1")])
  else if decide (url = ENDPOINT_get_user_info)
  then if decide (headers = [("Authorization", "Bearer tok-a")])
       then Ok (dict_of_items [("email", "a@x.com")])
       else Ok (dict_of_items [("email", "m@y.org")])
  else Ok (dict_of_items [("error", "invalid_token")]).

Definition demo_request (params : list (string * string)) : Request :=
  mkRequest (dict_of_items params) "http://localhost/".

(** The text of one character that is not ASCII, e with an acute accent, as
    its UTF-8 bytes: what werkzeug makes of [%C3%A9] in a query string. *)
Definition e_acute : string := String "195" (String "169" "").

(** The registry of the scenario [AUTHORIZED_EMAILS=a@x.com,b@x.com], nobody
    signed in. *)
Definition demo_world : World :=
  mkWorld (PyStr "client-1")
    (User_populate (authorized_emails "a@x.com,b@x.com")) None [].

(** Four configuration files: the scenario of the specification, a
    [PROJECT] section without [NAME], one with an empty [NAME], and one whose
    [NAME] is a number and which sets a key of the [FLASK] section; any
    other path cannot be opened. *)
Definition demo_read_config (path : string) : ConfigFile :=
  if decide (path = "demo.cfg")
  then Sections (dict_of_items [
         ("PROJECT", dict_of_items [("NAME", "Demo");
                                    ("AUTHORIZED_EMAILS", "a@x.com,b@x.com")])])
  else if decide (path = "noname.cfg")
  then Sections (dict_of_items [
         ("PROJECT", dict_of_items [("DOMAIN", "example.org")])])
  else if decide (path = "empty.cfg")
  then Sections (dict_of_items [("PROJECT", dict_of_items [("NAME", "")])])
  else if decide (path = "int.cfg")
  then Sections (dict_of_items [
         ("PROJECT", dict_of_items [("NAME", "123")]);
         ("FLASK", dict_of_items [("SECRET_KEY", "abc")])])
  else Unreadable.

(** The items of a dict in the order of the keys. *)
Definition demo_dict_items (m : gmap string Value) : list (string * Value) :=
  map_to_list m.

Definition demo_Project_init : nat → option string → bool → M Interp nat :=
  Project_init demo_read_config (λ path, "/srv/" +:+ path) (λ _, "/srv")
    (λ _, "demo") "/" (λ _, Ok tt) (λ _ _, Ok 1%nat) (λ _, Ok tt)
    demo_dict_items.

Definition demo_Project_register : nat → string → bool → M Interp unit :=
  Project_register demo_read_config (λ path, "/srv/" +:+ path) (λ _, "/srv")
    (λ _, "demo") "/" (λ _, Ok tt) (λ _ _, Ok 1%nat) (λ _, Ok tt)
    demo_dict_items.

Definition demo_run_calls : list Call → Interp :=
  run_calls demo_read_config (λ path, "/srv/" +:+ path) (λ _, "/srv")
    (λ _, "demo") "/" (λ _, Ok tt) (λ _ _, Ok 1%nat) (λ _, Ok tt)
    demo_dict_items.

(** ** The rest of [flasker/core/oauth.py] *)

(** [load_user], the loader given to the login manager, and [User.get_id],
    which the login extension stores in the session. *)
Definition load_user (w : World) (user_email : string) : option User :=
  User_get_from_id (all_users w) user_email.

Definition get_id (u : User) : string := user_id u.

(** [make]: the credentials become [OAuth.CLIENT_ID].  The client secret,
    set to the empty string, is read nowhere in the module, and the returned
    dict holds the blueprint and the login manager. *)
Definition make (credentials : pyval) : M World unit :=
  modify (λ w, mkWorld credentials (all_users w) (current_user w) (trace w)).


(** The two calls [catch_token] can make, for a token. *)
Definition token_info_call (token : string) : Event :=
  HttpGet (ENDPOINT_validate_token +:+ "?access_token=" +:+ token) [].

Definition user_info_call (token : string) : Event :=
  HttpGet ENDPOINT_get_user_info [("Authorization", "Bearer " +:+ token)].

(** A provider that cannot be reached, and one whose user-info answer has
    no [email] member. *)
Definition demo_provider_down (url : string) (headers : list (string * string))
  : Res Json :=
  Raise (ExternalError "URLError").

Definition demo_provider_no_email (url : string)
    (headers : list (string * string)) : Res Json :=
  if decide (url = ENDPOINT_get_user_info)
  then Ok (dict_of_items [("id", "1234")])
  else Ok (dict_of_items [("audience", "client-1")]).

(** ** The rest of [flasker/project.py] *)

(** [Project.before_startup]: [self._before_startup.append(func)]. *)
Definition before_startup (self func : nat) : M Interp unit :=
  let! hooks := getattr self "_before_startup" in
  match hooks with
  | AHooks funcs => setattr self "_before_startup" (AHooks (funcs ++ [func]))
  | _ => raise (AttributeError "append")
  end.

(** [try: body finally: final]: [final] runs whatever [body] does; when
    [final] raises, its exception is the one that leaves. *)
Definition try_finally {S A} (body : M S A) (final : M S unit) : M S A :=
  λ s, match body s with
       | (r, s') =>
           match final s' with
           | (Ok _, s'') => (r, s'')
           | (Raise e, s'') => (Raise e, s'')
           end
       end.

(** [try: body except E as e: handler(e)] *)
Definition try_except {S A} (body : M S A) (catches : Exn → bool)
    (handler : Exn → M S A) : M S A :=
  λ s, match body s with
       | (Raise e, s') => if catches e then handler e s' else (Raise e, s')
       | (Ok a, s') => (Ok a, s')
       end.

(** The calls made on the scoped session, in order. *)
Inductive SessionCall :=
  | Commit
  | Rollback
  | ExpungeAll
  | Remove.

Global Instance SessionCall_eq_dec : EqDecision SessionCall.
Proof. solve_decision. Defined.

Definition method_name (c : SessionCall) : string :=
  match c with
  | Commit => "commit"
  | Rollback => "rollback"
  | ExpungeAll => "expunge_all"
  | Remove => "remove"
  end.

(** SQLAlchemy's [InvalidRequestError], among the external errors. *)
Definition InvalidRequestError : Exn := ExternalError "InvalidRequestError".

Definition is_InvalidRequestError (e : Exn) : bool :=
  match e with
  | ExternalError what => bool_decide (what = "InvalidRequestError")
  | _ => false
  end.

Section Teardown.

(** What each method of the session answers when called. *)
Variable session_method : SessionCall → Res unit.

(** [self.session.method()], where [session] is the attribute as found in
    the instance dict: a scoped session, [None] before [_make], or nothing
    at all on an instance that was never registered. *)
Definition session_call (session : option Attr) (c : SessionCall)
  : M (list SessionCall) unit :=
  match session with
  | Some (ASession _) => λ calls, (session_method c, calls ++ [c])
  | Some _ => raise (AttributeError (method_name c))
  | None => raise (AttributeError "session")
  end.

Definition _dismantle_database_connections
    (cfg : gmap string (gmap string Value)) (session : option Attr)
  : M (list SessionCall) unit :=
  try_finally
    (try_except
       (let! project := getitem cfg "PROJECT" in
        let! commit_on_teardown := getitem project "COMMIT_ON_TEARDOWN" in
        if truthy commit_on_teardown then session_call session Commit
        else ret tt)
       is_InvalidRequestError
       (λ e,
          do! session_call session Rollback in
          do! session_call session ExpungeAll in
          raise e))
    (session_call session Remove).

End Teardown.

(** The first failure in a list of outcomes, if any. *)
Fixpoint first_failure (l : list (Res unit)) : Res unit :=
  match l with
  | [] => Ok tt
  | Ok _ :: l' => first_failure l'
  | Raise e :: _ => Raise e
  end.

(** The names [_make] imports for a [MODULES] value, in order. *)
Definition imported_names (modules : string) : list string :=
  ["flasker.core.flask"; "flasker.core.celery"]
  ++ (strip <$> split "," modules).

(** The domain [Project.__init__] derives from a project name. *)
Definition domain_of_name (name : string) : string :=
  sub_nonword (lower name).

(** A lowercase letter, a digit or the underscore. *)
Definition is_domain_char (c : ascii) : bool :=
  let n := N_of_ascii c in
  ((48 <=? n) && (n <=? 57) || (97 <=? n) && (n <=? 122) || (n =? 95))%N.

(** The attributes the registration writes before it sets the flag. *)
Definition registration_attrs (root_dir : string) (domain subdomain : Value)
    (d : gmap string Attr) : gmap string Attr :=
  <["_Project__registered" := ABool true]>
    (<["_before_startup" := AHooks []]>
       (<["_query_class" := AQueryClass]>
          (<["_engine" := ANone]>
             (<["session" := ANone]>
                (<["celery" := ANone]>
                   (<["flask" := ANone]>
                      (<["subdomain" := AVal subdomain]>
                         (<["domain" := AVal domain]>
                            (<["root_dir" := AStr root_dir]> d))))))))).

(** ** More concrete inputs *)

(** A provider whose token-info answers and whose user-info cannot be
    reached. *)
Definition demo_provider_half_down (url : string)
    (headers : list (string * string)) : Res Json :=
  if decide (url = ENDPOINT_get_user_info)
  then Raise (ExternalError "URLError")
  else Ok (dict_of_items [("audience", "client-1")]).

(** An import machinery that refuses the empty module name, as
    [__import__] does. *)
Definition demo_import (name : string) : Res unit :=
  if decide (name = "") then Raise (ExternalError "ValueError") else Ok tt.

(** A session whose commit meets a conflicting request, and one whose commit
    fails for another reason. *)
Definition demo_session_conflict (c : SessionCall) : Res unit :=
  match c with
  | Commit => Raise InvalidRequestError
  | _ => Ok tt
  end.

Definition demo_session_broken (c : SessionCall) : Res unit :=
  match c with
  | Commit => Raise (ExternalError "OperationalError")
  | _ => Ok tt
  end.

(** The process after [Project('demo.cfg', make=False)]. *)
Definition demo_registered : Interp :=
  demo_run_calls [CallProject 0%nat (Some "demo.cfg") false].

(** * The sign-in handlers *)

(** The handlers that render the prompt do so last: the answer is the prompt
    with the authorization URL, or the exception of building that URL, and
    the world is not touched. *)
Lemma render_sign_in_out_eq header color req w :
  render_sign_in_out header color req w
  = (prompt_or_raise header color req w, w).
Proof.
  unfold render_sign_in_out, prompt_or_raise, bind, get_state, lift_res, ret.
  destruct (get_google_login_url req w); reflexivity.
Qed.

(** The authorization URL reads the client id and nothing else of the
    world. *)
Lemma login_url_client req w w' :
  client_id w' = client_id w →
  get_google_login_url req w' = get_google_login_url req w.
Proof.
  intros H. unfold get_google_login_url, get_params. rewrite H. reflexivity.
Qed.

Lemma prompt_or_raise_client header color req w w' :
  client_id w' = client_id w →
  prompt_or_raise header color req w' = prompt_or_raise header color req w.
Proof.
  intros H. unfold prompt_or_raise. rewrite (login_url_client req w w' H).
  reflexivity.
Qed.

Section HandlerFacts.

Variable provider : string → list (string * string) → Res Json.

Ltac run_handler :=
  repeat (first
    [ progress cbn [bind ret raise get_state modify lift_res emit logger_debug
                    logger_warn user_info_log login_user logout_user
                    set_current_user getitem fst snd negb
                    client_id all_users current_user trace]
    | progress unfold bind, ret, raise, get_state, modify, lift_res, emit,
        logger_debug, logger_warn, user_info_log, login_user, logout_user,
        set_current_user, getitem, urlopen_json, validate_token,
        get_user_info_from_token, User_get_from_id
    | rewrite render_sign_in_out_eq
    | match goal with
      | H : ?x = _ |- context [match ?x with _ => _ end] => rewrite H
      end ]).

Ltac same_world :=
  unfold extend; cbn [client_id all_users current_user trace];
  rewrite <- ?app_assoc; reflexivity.

Ltac same_prompt :=
  apply (f_equal2 pair); [apply prompt_or_raise_client; reflexivity|same_world].

(** C10. A token-capture request without [access_token] raises the key error
    at once: the world is left as it was, so the provider is not contacted
    and no session is created. *)
Theorem catch_token_missing_access_token req w :
  args req !! "access_token" = None →
  catch_token provider req w = (Raise (KeyError "access_token"), w).
Proof.
  intros Hargs. unfold catch_token. run_handler. reflexivity.
Qed.

(** The part of C2 that holds of every request: when the token-info answer
    has an [error] member, the handler makes that one call and no other, logs
    in nobody and leaves the session as it was; its answer is the sign-in
    prompt with the authorization URL of this request, when that URL can be
    built. *)
Lemma catch_token_invalid_token req w token token_info :
  args req !! "access_token" = Some token →
  provider (ENDPOINT_validate_token +:+ "?access_token=" +:+ token) []
    = Ok token_info →
  is_Some (token_info !! "error") →
  let evs := [AppLog DEBUG "Successfully caught access token.";
              HttpGet (ENDPOINT_validate_token +:+ "?access_token=" +:+ token) [];
              AppLog WARN "Access token is invalid."] in
  catch_token provider req w
    = (prompt_or_raise "Invalid token" "danger" req w,
       extend w (current_user w) evs)
  ∧ existsb is_login evs = false
  ∧ filter (λ e, is_provider_call e = true) evs
    = [HttpGet (ENDPOINT_validate_token +:+ "?access_token=" +:+ token) []].
Proof.
  intros Hargs Hinfo [err Herr] evs. split; [|split; reflexivity].
  unfold catch_token. run_handler. same_prompt.
Qed.

(** The part of C1 that holds of every request: a valid token whose email is
    not a key of the registry logs nobody in, leaves the session as it was
    and logs a warning naming the email; the answer is the sign-in prompt
    with the authorization URL of this request, when that URL can be
    built. *)
Lemma catch_token_unauthorized_email req w token token_info user_infos email :
  args req !! "access_token" = Some token →
  provider (ENDPOINT_validate_token +:+ "?access_token=" +:+ token) []
    = Ok token_info →
  token_info !! "error" = None →
  provider ENDPOINT_get_user_info [("Authorization", "Bearer " +:+ token)]
    = Ok user_infos →
  user_infos !! "email" = Some email →
  all_users w !! email = None →
  let evs := [AppLog DEBUG "Successfully caught access token.";
              HttpGet (ENDPOINT_validate_token +:+ "?access_token=" +:+ token) [];
              AppLog DEBUG "Access token is valid.";
              HttpGet ENDPOINT_get_user_info
                [("Authorization", "Bearer " +:+ token)];
              AppLog DEBUG "Gathered user infos successfully.";
              AppLog WARN (email +:+ " tried to sign in.")] in
  catch_token provider req w
    = (prompt_or_raise "Unauthorized" "warning" req w,
       extend w (current_user w) evs)
  ∧ existsb is_login evs = false
  ∧ AppLog WARN (email +:+ " tried to sign in.") ∈ evs.
Proof.
  intros Hargs Hinfo Herr Huser Hemail Hreg evs.
  split; [|split; [reflexivity|]].
  - unfold catch_token. run_handler. same_prompt.
  - unfold evs. do 5 right. left.
Qed.


(** Without [state] the same request logs the user in and then raises. *)
Lemma catch_token_authorized_no_state req w token token_info user_infos
    email u :
  args req !! "access_token" = Some token →
  provider (ENDPOINT_validate_token +:+ "?access_token=" +:+ token) []
    = Ok token_info →
  token_info !! "error" = None →
  provider ENDPOINT_get_user_info [("Authorization", "Bearer " +:+ token)]
    = Ok user_infos →
  user_infos !! "email" = Some email →
  all_users w !! email = Some u →
  args req !! "state" = None →
  catch_token provider req w
    = (Raise (KeyError "state"),
       extend w (Some u)
         [AppLog DEBUG "Successfully caught access token.";
          HttpGet (ENDPOINT_validate_token +:+ "?access_token=" +:+ token) [];
          AppLog DEBUG "Access token is valid.";
          HttpGet ENDPOINT_get_user_info
            [("Authorization", "Bearer " +:+ token)];
          AppLog DEBUG "Gathered user infos successfully.";
          LoginUser u;
          UserLog u INFO "Signed in."]).
Proof.
  intros Hargs Hinfo Herr Huser Hemail Hreg Hstate.
  unfold catch_token. run_handler. same_world.
Qed.



End HandlerFacts.

Lemma catch_token_missing_access_token_witness :
  args (demo_request [("state", "/home")]) !! "access_token" = None
  ∧ catch_token demo_provider (demo_request [("state", "/home")]) demo_world
    = (Raise (KeyError "access_token"), demo_world).
Proof.
  split; [reflexivity|].
  apply (catch_token_missing_access_token demo_provider). reflexivity.
Defined.

(** C2, at a request the code can receive: a stale token, and a return path
    [next] that is not ASCII.  The handler makes the one call, logs the
    warning and logs in nobody, and then building the authorization URL
    raises: no prompt is rendered. *)
Theorem catch_token_invalid_token_unicode_next :
  catch_token demo_provider
    (demo_request [("access_token", "stale"); ("next", e_acute)]) demo_world
  = (Raise UnicodeEncodeError,
     extend demo_world None
       [AppLog DEBUG "Successfully caught access token.";
        HttpGet (ENDPOINT_validate_token +:+ "?access_token=stale") [];
        AppLog WARN "Access token is invalid."]).
Proof. vm_compute. reflexivity. Qed.

(** C1, at a request the code can receive: a live token of an email that is
    not authorized, and a return path [next] that is not ASCII.  Nobody is
    logged in and the warning is logged, and then building the authorization
    URL raises: no prompt is rendered. *)
Theorem catch_token_unauthorized_unicode_next :
  catch_token demo_provider
    (demo_request [("access_token", "tok-m"); ("next", e_acute)]) demo_world
  = (Raise UnicodeEncodeError,
     extend demo_world None
       [AppLog DEBUG "Successfully caught access token.";
        HttpGet (ENDPOINT_validate_token +:+ "?access_token=tok-m") [];
        AppLog DEBUG "Access token is valid.";
        HttpGet ENDPOINT_get_user_info [("Authorization", "Bearer tok-m")];
        AppLog DEBUG "Gathered user infos successfully.";
        AppLog WARN "m@y.org tried to sign in."]).
Proof. vm_compute. reflexivity. Qed.

(** C9, at a request the code can receive: a sign-out without a session
    whose [next] is not ASCII.  The world is left as it was, but building
    the authorization URL raises: no goodbye prompt is rendered.  With a
    session the logout happens first and the same exception follows. *)
Theorem sign_out_unicode_next :
  sign_out (demo_request [("next", e_acute)]) demo_world
  = (Raise UnicodeEncodeError, demo_world)
  ∧ sign_out (demo_request [("next", e_acute)])
      (extend demo_world (Some (mkUser "a@x.com")) [])
    = (Raise UnicodeEncodeError,
       extend demo_world None
         [UserLog (mkUser "a@x.com") INFO "Signed out."; LogoutUser]).
Proof. split; vm_compute; reflexivity. Qed.

(** C3, at a request the code can receive: a live token of an authorized
    email and no [state].  The user is logged in, and then indexing
    [request.args] raises; there is no redirect to [/]. *)
Theorem catch_token_without_state_raises :
  catch_token demo_provider (demo_request [("access_token", "tok-a")])
    demo_world
  = (Raise (KeyError "state"),
     extend demo_world (Some (mkUser "a@x.com"))
       [AppLog DEBUG "Successfully caught access token.";
        HttpGet (ENDPOINT_validate_token +:+ "?access_token=tok-a") [];
        AppLog DEBUG "Access token is valid.";
        HttpGet ENDPOINT_get_user_info [("Authorization", "Bearer tok-a")];
        AppLog DEBUG "Gathered user infos successfully.";
        LoginUser (mkUser "a@x.com");
        UserLog (mkUser "a@x.com") INFO "Signed in."]).
Proof.
  apply (catch_token_authorized_no_state demo_provider _ demo_world "tok-a"
           (dict_of_items [("audience", "client-1")])
           (dict_of_items [("email", "a@x.com")]) "a@x.com");
    reflexivity.
Qed.

(** * The authorization URL *)

Lemma app_cons c a b : String c a +:+ b = String c (a +:+ b).
Proof. reflexivity. Qed.

Lemma all_chars_app p a b :
  all_chars p (a +:+ b) = all_chars p a && all_chars p b.
Proof.
  induction a as [|c a IH]; [reflexivity|].
  rewrite app_cons. cbn [all_chars]. rewrite IH. apply andb_assoc.
Qed.

Lemma replace_char_app x y a b :
  replace_char x y (a +:+ b) = replace_char x y a +:+ replace_char x y b.
Proof.
  induction a as [|c a IH]; [reflexivity|].
  rewrite app_cons. cbn [replace_char]. rewrite IH. reflexivity.
Qed.

Lemma str_app_assoc a b c : (a +:+ b) +:+ c = a +:+ (b +:+ c).
Proof.
  induction a as [|x a IH]; [reflexivity|].
  rewrite !app_cons, IH. reflexivity.
Qed.

Lemma str_app_nil_r a : a +:+ "" = a.
Proof. induction a as [|x a IH]; [reflexivity|]. rewrite app_cons, IH. reflexivity. Qed.

Lemma rev_app_spec s acc : String.rev_app s acc = String.rev s +:+ acc.
Proof.
  revert acc. induction s as [|c s IH]; intros acc; [reflexivity|].
  unfold String.rev. cbn [String.rev_app].
  rewrite (IH (String c acc)), (IH (String c "")), str_app_assoc.
  reflexivity.
Qed.

Lemma rev_cons c s : String.rev (String c s) = String.rev s +:+ String c "".
Proof. unfold String.rev at 1. cbn [String.rev_app]. apply rev_app_spec. Qed.

Lemma rev_snoc s c : String.rev (s +:+ String c "") = String c (String.rev s).
Proof.
  induction s as [|x s IH]; [reflexivity|].
  rewrite app_cons, !rev_cons, IH. reflexivity.
Qed.

Lemma rev_involutive s : String.rev (String.rev s) = s.
Proof.
  induction s as [|c s IH]; [reflexivity|].
  rewrite rev_cons, rev_snoc, IH. reflexivity.
Qed.

Lemma lstrip_cons c s :
  lstrip (String c s) = if Ascii.is_space c then lstrip s else String c s.
Proof. reflexivity. Qed.

Lemma lstrip_head s :
  lstrip s = "" ∨ ∃ c t, lstrip s = String c t ∧ Ascii.is_space c = false.
Proof.
  induction s as [|c s IH]; [left; reflexivity|].
  rewrite lstrip_cons. destruct (Ascii.is_space c) eqn:Hc; [exact IH|].
  right. exists c, s. split; [reflexivity|exact Hc].
Qed.

Lemma lstrip_idem s : lstrip (lstrip s) = lstrip s.
Proof.
  destruct (lstrip_head s) as [->|(c & t & -> & Hc)]; [reflexivity|].
  rewrite lstrip_cons, Hc. reflexivity.
Qed.

Lemma lstrip_snoc s c :
  Ascii.is_space c = false → ∃ u, lstrip (s +:+ String c "") = u +:+ String c "".
Proof.
  intros Hc. induction s as [|x s IH].
  - exists "". change ("" +:+ String c "") with (String c "").
    rewrite lstrip_cons, Hc. reflexivity.
  - rewrite app_cons, lstrip_cons. destruct (Ascii.is_space x); [exact IH|].
    exists (String x s). reflexivity.
Qed.

Lemma strip_clean s :
  lstrip (strip s) = strip s ∧ rstrip (strip s) = strip s.
Proof.
  unfold strip. split.
  - destruct (lstrip_head s) as [->|(c & t & -> & Hc)]; [reflexivity|].
    unfold rstrip. rewrite rev_cons.
    destruct (lstrip_snoc (String.rev t) c Hc) as [u ->].
    rewrite rev_snoc, lstrip_cons, Hc. reflexivity.
  - unfold rstrip. rewrite rev_involutive, lstrip_idem. reflexivity.
Qed.

Lemma char_in_app c a b : char_in c (a +:+ b) = char_in c a || char_in c b.
Proof.
  induction a as [|x a IH]; [reflexivity|].
  rewrite app_cons. cbn [char_in]. rewrite IH.
  destruct (decide (c = x)); reflexivity.
Qed.

Lemma char_in_rev c s : char_in c (String.rev s) = char_in c s.
Proof.
  induction s as [|x s IH]; [reflexivity|].
  rewrite rev_cons, char_in_app, IH. cbn [char_in].
  destruct (decide (c = x)), (char_in c s); reflexivity.
Qed.

Lemma char_in_lstrip c s : char_in c s = false → char_in c (lstrip s) = false.
Proof.
  induction s as [|x s IH]; [reflexivity|].
  rewrite lstrip_cons. destruct (Ascii.is_space x); [|auto].
  cbn [char_in]. destruct (decide (c = x)); [discriminate|exact IH].
Qed.

Lemma char_in_strip c s : char_in c s = false → char_in c (strip s) = false.
Proof.
  intros H. unfold strip, rstrip.
  rewrite char_in_rev. apply char_in_lstrip. rewrite char_in_rev.
  apply char_in_lstrip, H.
Qed.

Lemma split_go_fields sep cur s field :
  char_in sep cur = false → field ∈ split_go sep cur s →
  char_in sep field = false.
Proof.
  revert cur. induction s as [|c s IH]; intros cur Hcur Hin; cbn [split_go] in Hin.
  - apply list_elem_of_singleton in Hin as ->. rewrite char_in_rev. exact Hcur.
  - destruct (decide (c = sep)) as [->|Hne].
    + apply elem_of_cons in Hin as [->|Hin].
      * rewrite char_in_rev. exact Hcur.
      * apply (IH ""); [reflexivity|exact Hin].
    + apply (IH (String c cur)); [|exact Hin].
      cbn [char_in]. rewrite decide_False by congruence. exact Hcur.
Qed.


Lemma char_in_cons c d s :
  char_in c (String d s) = false ↔ c ≠ d ∧ char_in c s = false.
Proof.
  cbn [char_in]. destruct (decide (c = d)) as [->|Hne].
  - split; [discriminate|intros [H _]; contradiction].
  - split; [intros H; split; [exact Hne|exact H]|intros [_ H]; exact H].
Qed.

(** [split] on a text without the separator, and on a text that starts
    with such a field. *)
Lemma split_go_nosep sep cur x :
  char_in sep x = false → split_go sep cur x = [String.rev cur +:+ x].
Proof.
  revert cur. induction x as [|c x IH]; intros cur H.
  - cbn [split_go]. rewrite str_app_nil_r. reflexivity.
  - apply char_in_cons in H as [Hne H]. cbn [split_go].
    rewrite decide_False by congruence.
    rewrite (IH (String c cur) H), rev_cons, str_app_assoc. reflexivity.
Qed.

Lemma split_go_sep sep cur x rest :
  char_in sep x = false →
  split_go sep cur (x +:+ String sep rest)
  = (String.rev cur +:+ x) :: split_go sep "" rest.
Proof.
  revert cur. induction x as [|c x IH]; intros cur H.
  - change ("" +:+ String sep rest) with (String sep rest). cbn [split_go].
    rewrite decide_True by reflexivity.
    rewrite str_app_nil_r. reflexivity.
  - apply char_in_cons in H as [Hne H]. rewrite app_cons. cbn [split_go].
    rewrite decide_False by congruence.
    rewrite (IH (String c cur) H), rev_cons, str_app_assoc. reflexivity.
Qed.

(** Splitting what [join] made gives the fields back, when none of them
    holds the separator. *)
Lemma split_join sep l :
  l ≠ [] → Forall (λ x, char_in sep x = false) l →
  split sep (join (String sep "") l) = l.
Proof.
  induction l as [|x l IH]; [done|]. intros _ Hall.
  apply Forall_cons in Hall as [Hx Hl]. destruct l as [|y l].
  - cbn [join]. unfold split. rewrite split_go_nosep by exact Hx. reflexivity.
  - change (join (String sep "") (x :: y :: l))
      with (x +:+ String sep (join (String sep "") (y :: l))).
    unfold split. rewrite split_go_sep by exact Hx.
    fold (split sep (join (String sep "") (y :: l))).
    rewrite IH by (done || exact Hl). reflexivity.
Qed.

Lemma is_ascii_app a b : is_ascii (a +:+ b) = is_ascii a && is_ascii b.
Proof.
  induction a as [|c a IH]; [reflexivity|].
  rewrite app_cons. cbn [is_ascii]. rewrite IH. apply andb_assoc.
Qed.

Lemma quoter_encoded c :
  all_chars (λ d, char_in d (always_safe +:+ "%+")) (quoter "" c) = true
  ∧ all_chars (λ d, char_in d (always_safe +:+ "%+"))
      (replace_char " " "+" (quoter " " c)) = true.
Proof. destruct c as [[] [] [] [] [] [] [] []]; split; vm_compute; reflexivity. Qed.

Lemma quote_plus_encoded s : url_encoded (quote_plus s).
Proof.
  unfold url_encoded, quote_plus. destruct (char_in " " s).
  - induction s as [|c s IH]; [reflexivity|].
    cbn [quote]. rewrite replace_char_app, all_chars_app, IH.
    rewrite (proj2 (quoter_encoded c)). reflexivity.
  - induction s as [|c s IH]; [reflexivity|].
    cbn [quote]. rewrite all_chars_app, IH.
    rewrite (proj1 (quoter_encoded c)). reflexivity.
Qed.

Lemma dict_of_items_reverse {V} (l : list (string * V)) :
  dict_of_items l = list_to_map (reverse l).
Proof.
  unfold dict_of_items. induction l as [|kv l IH] using rev_ind; [reflexivity|].
  rewrite foldl_snoc, reverse_snoc, IH. reflexivity.
Qed.

Lemma dict_of_items_to_list {V} (l : list (string * V)) :
  NoDup l.*1 → map_to_list (dict_of_items l) ≡ₚ l.
Proof.
  intros Hnd. rewrite dict_of_items_reverse.
  rewrite map_to_list_to_map.
  - apply reverse_Permutation.
  - rewrite fmap_reverse, reverse_Permutation. exact Hnd.
Qed.

Lemma get_params_items req w :
  map_to_list (get_params req w) ≡ₚ
    [("scope", PyStr SCOPE_email);
     ("redirect_uri", PyUnicode (url_root req +:+ "oauth2callback"));
     ("response_type", PyStr "token");
     ("state", match args req !! "next" with
               | Some v => PyUnicode v
               | None => PyStr "/"
               end);
     ("client_id", client_id w)].
Proof.
  unfold get_params. rewrite dict_of_items_to_list.
  - reflexivity.
  - cbn. apply (bool_decide_unpack _). vm_compute. reflexivity.
Qed.

Lemma plus_quoter_replace c :
  replace_char " " "+" (quoter " " c) = plus_quoter c.
Proof. destruct c as [[] [] [] [] [] [] [] []]; vm_compute; reflexivity. Qed.

Lemma unquote_plus_quoter c r :
  unquote_plus (plus_quoter c +:+ r) = String c (unquote_plus r).
Proof. destruct c as [[] [] [] [] [] [] [] []]; reflexivity. Qed.

Lemma quote_space s :
  replace_char " " "+" (quote s " ") = plus_quote s.
Proof.
  induction s as [|c s IH]; [reflexivity|].
  cbn [quote plus_quote].
  rewrite replace_char_app, plus_quoter_replace, IH. reflexivity.
Qed.

Lemma quote_no_space s :
  char_in " " s = false →
  quote s "" = plus_quote s.
Proof.
  induction s as [|c s IH]; [reflexivity|].
  cbn [char_in quote plus_quote]. intros H. unfold plus_quoter at 1.
  destruct (decide (" "%char = c)) as [->|Hne]; [discriminate|].
  rewrite decide_False by congruence. rewrite IH by exact H. reflexivity.
Qed.

Lemma unquote_quote_plus s : unquote_plus (quote_plus s) = s.
Proof.
  unfold quote_plus. destruct (char_in " " s) eqn:Hsp.
  - rewrite quote_space. clear Hsp. induction s as [|c s IH]; [reflexivity|].
    cbn [plus_quote]. rewrite unquote_plus_quoter, IH. reflexivity.
  - rewrite quote_no_space by exact Hsp. clear Hsp.
    induction s as [|c s IH]; [reflexivity|].
    cbn [plus_quote]. rewrite unquote_plus_quoter, IH. reflexivity.
Qed.



Lemma urlencode_items_ok l :
  Forall (λ kv, ∃ v, py_str kv.2 = Ok v) l →
  ∃ xs, urlencode_items l = Ok xs
        ∧ Forall2 (λ kv x, ∃ v, py_str kv.2 = Ok v ∧ x = encoded_item kv.1 v)
            l xs.
Proof.
  induction 1 as [|kv l [v Hv] _ (xs & Hxs & IH)].
  - exists []. split; [reflexivity|constructor].
  - exists (encoded_item kv.1 v :: xs). split.
    + cbn [urlencode_items]. unfold urlencode_item. rewrite Hv, Hxs.
      reflexivity.
    + constructor; [exists v; split; [exact Hv|reflexivity]|exact IH].
Qed.

Lemma encoded_item_no_amp k v : char_in "&" (encoded_item k v) = false.
Proof.
  assert (Hsafe : ∀ s, url_encoded s → char_in "&" s = false).
  { intros s. unfold url_encoded. induction s as [|c s IH]; [reflexivity|].
    cbn [all_chars]. intros [Hc Hs]%andb_true_iff.
    apply char_in_cons. split; [|exact (IH Hs)].
    intros <-. vm_compute in Hc. discriminate. }
  unfold encoded_item. rewrite !char_in_app.
  rewrite (Hsafe _ (quote_plus_encoded k)), (Hsafe _ (quote_plus_encoded v)).
  reflexivity.
Qed.

(** The part of C6 the code has.  When the texts of the request are ASCII
    and [str] of the client id is [cid], the login URL is the authorization
    endpoint, a question mark and a query that splits at the ampersands into
    the five encoded parameters, in the order the dict yields them:
    [response_type=token] is one of them, [state] carries the [next] argument
    of the request, or [/] when there is none, which is sent as [%2F]; a
    value goes through [quote_plus], whose output is made of URL-safe
    characters only and decodes back to the value. *)
Lemma login_url_shape req w cid :
  is_ascii (url_root req) = true →
  (∀ v, args req !! "next" = Some v → is_ascii v = true) →
  py_str (client_id w) = Ok cid →
  let return_path := default "/" (args req !! "next") in
  ∃ query,
    get_google_login_url req w
    = Ok (ENDPOINT_get_token_or_code +:+ "?" +:+ query)
    ∧ split "&" query
      ≡ₚ ["scope=" +:+ quote_plus SCOPE_email;
          "redirect_uri=" +:+ quote_plus (url_root req +:+ "oauth2callback");
          "response_type=token";
          "state=" +:+ quote_plus return_path;
          "client_id=" +:+ quote_plus cid]
    ∧ (args req !! "next" = None → "state=%2F" ∈ split "&" query)
    ∧ url_encoded (quote_plus return_path)
    ∧ unquote_plus (quote_plus return_path) = return_path.
Proof.
  intros Hroot Hnext Hcid return_path.
  pose proof (get_params_items req w) as Hperm.
  set (base := [("scope", PyStr SCOPE_email);
                ("redirect_uri", PyUnicode (url_root req +:+ "oauth2callback"));
                ("response_type", PyStr "token");
                ("state", match args req !! "next" with
                          | Some v => PyUnicode v
                          | None => PyStr "/"
                          end);
                ("client_id", client_id w)]) in Hperm.
  assert (Hstate : py_str (match args req !! "next" with
                           | Some v => PyUnicode v
                           | None => PyStr "/"
                           end) = Ok return_path).
  { unfold return_path. destruct (args req !! "next") as [v|] eqn:Hv;
      [|reflexivity].
    cbn. rewrite (Hnext v eq_refl). reflexivity. }
  assert (Huri : py_str (PyUnicode (url_root req +:+ "oauth2callback"))
                 = Ok (url_root req +:+ "oauth2callback")).
  { cbn [py_str]. rewrite is_ascii_app, Hroot. reflexivity. }
  assert (Hbase : Forall (λ kv : string * pyval, ∃ v, py_str kv.2 = Ok v) base).
  { repeat constructor; cbn [snd]; eauto. }
  rewrite <- Hperm in Hbase.
  destruct (urlencode_items_ok _ Hbase) as (xs & Hxs & Hall).
  exists (join "&" xs).
  assert (Hsplit : split "&" (join "&" xs) = xs).
  { apply split_join.
    - intros ->. apply Forall2_nil_inv_r in Hall.
      apply (f_equal length) in Hall. rewrite Hperm in Hall.
      discriminate Hall.
    - clear -Hall. induction Hall as [|kv x l xs (v & _ & ->) _ IH];
        constructor; [apply encoded_item_no_amp|exact IH]. }
  assert (Hxs' : xs ≡ₚ ["scope=" +:+ quote_plus SCOPE_email;
            "redirect_uri=" +:+ quote_plus (url_root req +:+ "oauth2callback");
            "response_type=token";
            "state=" +:+ quote_plus return_path;
            "client_id=" +:+ quote_plus cid]).
  { set (enc := λ kv : string * pyval,
             match py_str kv.2 with
             | Ok v => encoded_item kv.1 v
             | Raise _ => ""
             end).
    assert (Henc : xs = enc <$> map_to_list (get_params req w)).
    { clear -Hall. induction Hall as [|kv x l xs (v & Hv & ->) _ IH];
        [reflexivity|].
      cbn [fmap list_fmap]. rewrite <- IH. unfold enc at 1. rewrite Hv.
      reflexivity. }
    rewrite Henc, Hperm. unfold base. cbn [fmap list_fmap]. unfold enc.
    cbn [fst snd]. rewrite Hstate, Huri, Hcid. reflexivity. }
  split; [|split; [|split; [|split]]].
  - unfold get_google_login_url, urlencode. rewrite Hxs. reflexivity.
  - rewrite Hsplit. exact Hxs'.
  - intros Hnone. rewrite Hsplit, Hxs'. unfold return_path. rewrite Hnone.
    do 3 right. left.
  - apply quote_plus_encoded.
  - apply unquote_quote_plus.
Qed.


(** C6, at a request the code can receive: a return path [next] that is
    not ASCII.  No URL is produced: building it raises. *)
Theorem login_url_unicode_next_raises :
  args (demo_request [("next", e_acute)]) !! "next" = Some e_acute
  ∧ is_ascii e_acute = false
  ∧ get_google_login_url (demo_request [("next", e_acute)]) demo_world
    = Raise UnicodeEncodeError.
Proof. repeat split; vm_compute; reflexivity. Qed.

(** * The user registry *)

Lemma dict_of_items_lookup {V} (f : string → V) (l : list string)
    (m : gmap string V) k :
  foldl (λ m kv, <[kv.1 := kv.2]> m) m ((λ e, (e, f e)) <$> l) !! k
  = if decide (k ∈ l) then Some (f k) else m !! k.
Proof.
  revert m. induction l as [|e l IH]; intros m; [reflexivity|].
  cbn [fmap list_fmap foldl]. rewrite IH. cbn [fst snd].
  destruct (decide (k ∈ l)) as [Hin|Hnin].
  - rewrite decide_True by (right; exact Hin). reflexivity.
  - destruct (decide (k = e)) as [->|Hne].
    + rewrite decide_True by left. apply lookup_insert_eq.
    + rewrite decide_False by (intros [?|?]%elem_of_cons; done).
      apply lookup_insert_ne. congruence.
Qed.

Lemma get_from_id_populate emails id :
  User_get_from_id (User_populate emails) id
  = if decide (id ∈ emails) then Some (mkUser id) else None.
Proof.
  unfold User_get_from_id, User_populate, dict_of_items.
  rewrite dict_of_items_lookup. rewrite lookup_empty.
  destruct (decide (id ∈ emails)); reflexivity.
Qed.















(** * Reasoning rules for the monad *)

Section Monad.
Context {S : Type}.

Lemma hoare_bind {A B} (P : S → Prop) (c : M S A) (k : A → M S B)
    (R : A → S → Prop) (Q : Res B → S → Prop) :
  hoare P c (λ r s, match r with Ok a => R a s | Raise e => Q (Raise e) s end) →
  (∀ a, hoare (R a) (k a) Q) →
  hoare P (bind c k) Q.
Proof.
  intros Hc Hk s HP. specialize (Hc s HP). unfold bind.
  destruct (c s) as [[a|e] s']; cbn in Hc |- *.
  - apply Hk. exact Hc.
  - exact Hc.
Qed.

Lemma hoare_bind_steady {A B} (P : S → Prop) (c : M S A) (k : A → M S B)
    (Q : Res B → S → Prop) :
  steady P c → (∀ a, hoare P (k a) Q) → hoare P (bind c k) Q.
Proof.
  intros Hc Hk. apply hoare_bind with (R := λ _, P); [|exact Hk].
  intros s HP. destruct (Hc s HP) as [[a Ha] HP']. rewrite Ha. exact HP'.
Qed.

Lemma hoare_bind_keeps {A B} (P : S → Prop) (c : M S A) (k : A → M S B)
    (Q : Res B → S → Prop) :
  keeps P c → (∀ e s, P s → Q (Raise e) s) → (∀ a, hoare P (k a) Q) →
  hoare P (bind c k) Q.
Proof.
  intros Hc Hraise Hk. apply hoare_bind with (R := λ _, P); [|exact Hk].
  intros s HP. specialize (Hc s HP). destruct (c s).1; auto.
Qed.

Lemma keeps_bind {A B} (P : S → Prop) (c : M S A) (k : A → M S B) :
  keeps P c → (∀ a, keeps P (k a)) → keeps P (bind c k).
Proof. intros Hc Hk. apply hoare_bind_keeps; auto. Qed.

Lemma steady_keeps {A} (P : S → Prop) (c : M S A) : steady P c → keeps P c.
Proof. intros Hc s HP. apply (Hc s HP). Qed.

Lemma pure_keeps {A} (P : S → Prop) (c : M S A) : pure c → keeps P c.
Proof. intros Hc s HP. change (P (c s).2). rewrite Hc. exact HP. Qed.

Lemma pure_ret {A} (a : A) : pure (ret a : M S A).
Proof. intros s. reflexivity. Qed.

Lemma pure_raise {A} e : pure (raise e : M S A).
Proof. intros s. reflexivity. Qed.

Lemma pure_lift_res {A} (r : Res A) : pure (lift_res r : M S A).
Proof. intros s. reflexivity. Qed.

Lemma pure_get_state : pure (get_state : M S S).
Proof. intros s. reflexivity. Qed.

Lemma pure_getitem {V} (d : gmap string V) key : pure (getitem d key : M S V).
Proof. intros s. unfold getitem. destruct (d !! key); reflexivity. Qed.

Lemma pure_bind {A B} (c : M S A) (k : A → M S B) :
  pure c → (∀ a, pure (k a)) → pure (bind c k).
Proof.
  intros Hc Hk s. unfold bind. specialize (Hc s).
  destruct (c s) as [[a|e] s']; cbn in Hc; subst s'; [apply Hk|reflexivity].
Qed.

Lemma pure_for_each {A} (l : list A) (f : A → M S unit) :
  (∀ x, pure (f x)) → pure (for_each l f).
Proof.
  intros Hf. induction l as [|x l IH]; cbn [for_each].
  - apply pure_ret.
  - apply pure_bind; auto.
Qed.

Lemma pure_value_or x (y : M S Value) : pure y → pure (value_or x y).
Proof. intros Hy. unfold value_or. destruct (truthy x); [apply pure_ret|exact Hy]. Qed.

Lemma pure_value_lower v : pure (value_lower v : M S string).
Proof. destruct v; intros st; reflexivity. Qed.

Lemma pure_value_split v : pure (value_split v : M S (list string)).
Proof. destruct v; intros st; reflexivity. Qed.

End Monad.

Create HintDb pure_db.
#[export] Hint Resolve pure_ret pure_raise pure_lift_res pure_get_state pure_getitem
  pure_for_each pure_value_or pure_value_lower pure_value_split : pure_db.
#[export] Hint Extern 2 (pure (bind _ _)) => apply pure_bind; [|intros ?] : pure_db.

(** * The configuration merge *)

Lemma merge_sections_lookup (l : list (string * gmap string Value))
    (cfg : gmap string (gmap string Value)) s :
  NoDup l.*1 →
  foldl merge_section cfg l !! s
  = match (list_to_map l : gmap string (gmap string Value)) !! s with
    | Some items => Some (match cfg !! s with
                          | Some known => items ∪ known
                          | None => items
                          end)
    | None => cfg !! s
    end.
Proof.
  revert cfg. induction l as [|[k items] l IH]; intros cfg Hnd; [reflexivity|].
  apply NoDup_cons in Hnd as [Hk Hnd]. cbn [foldl]. rewrite IH by exact Hnd.
  cbn [list_to_map foldr fst snd].
  destruct (decide (k = s)) as [->|Hne].
  - rewrite lookup_insert_eq.
    rewrite (not_elem_of_list_to_map_1 l s Hk).
    unfold merge_section. cbn [fst snd].
    destruct (cfg !! s); apply lookup_insert_eq.
  - rewrite (lookup_insert_ne _ k s) by exact Hne.
    assert (Hms : merge_section cfg (k, items) !! s = cfg !! s).
    { unfold merge_section. cbn [fst snd].
      destruct (cfg !! k); apply lookup_insert_ne; exact Hne. }
    rewrite Hms. reflexivity.
Qed.

Lemma merge_config_lookup (cfg parsed : gmap string (gmap string Value)) s :
  merge_config cfg parsed !! s
  = match parsed !! s with
    | Some items => Some (match cfg !! s with
                          | Some known => items ∪ known
                          | None => items
                          end)
    | None => cfg !! s
    end.
Proof.
  unfold merge_config. rewrite merge_sections_lookup.
  - rewrite list_to_map_to_list. reflexivity.
  - apply NoDup_fst_map_to_list.
Qed.

Lemma merge_config_lookup2 (cfg parsed : gmap string (gmap string Value)) s k :
  lookup2 (merge_config cfg parsed) s k
  = match lookup2 parsed s k with
    | Some v => Some v
    | None => lookup2 cfg s k
    end.
Proof.
  unfold lookup2. rewrite merge_config_lookup.
  destruct (parsed !! s) as [items|]; cbn; [|reflexivity].
  destruct (cfg !! s) as [known|]; cbn.
  - rewrite lookup_union. destruct (items !! k), (known !! k); reflexivity.
  - destruct (items !! k); reflexivity.
Qed.

Lemma hoare_bind_modify {S B} (P P' : S → Prop) (f : S → S) (k : unit → M S B)
    (Q : Res B → S → Prop) :
  (∀ s, P s → P' (f s)) → hoare P' (k tt) Q → hoare P (bind (modify f) k) Q.
Proof. intros Hf Hk s HP. unfold bind, modify. apply Hk, Hf, HP. Qed.

Lemma hoare_consequence {S A} (P : S → Prop) (c : M S A)
    (Q Q' : Res A → S → Prop) :
  hoare P c Q' → (∀ r s, Q' r s → Q r s) → hoare P c Q.
Proof. intros Hc HQ s HP. apply HQ, Hc, HP. Qed.

(** * The project bootstrap *)

Lemma state_dict_alter f it :
  state_dict (set_dicts (alter f state_cell) it)
  = match dicts it !! state_cell with Some d => f d | None => ∅ end.
Proof.
  unfold state_dict, set_dicts. cbn [dicts]. rewrite list_lookup_alter.
  destruct (dicts it !! state_cell); reflexivity.
Qed.

Lemma pure_getattr self name : pure (getattr self name).
Proof. intros it. unfold getattr. destruct (_ !! name); reflexivity. Qed.

Lemma setattr_steady os cur cfg flag path self name a :
  os !! self = Some state_cell → name ≠ "_Project__registered" →
  steady (phase os cur cfg flag path) (setattr self name a).
Proof.
  intros Hself Hname it (Hos & Hcur & Hcfg & Hlen & Hreg & Hpath).
  unfold setattr. rewrite Hos, Hself. cbn [fst snd].
  split; [eexists; reflexivity|].
  repeat split; try assumption.
  - cbn. rewrite length_alter. exact Hlen.
  - unfold registered. rewrite state_dict_alter.
    unfold registered, state_dict in Hreg.
    destruct (dicts it !! state_cell) as [d|]; [|exact Hreg].
    cbn in Hreg. unfold registered_of in *.
    rewrite lookup_insert_ne by exact Hname. exact Hreg.
Qed.

Lemma setattr_flag os cur cfg path self :
  os !! self = Some state_cell →
  hoare (phase os cur cfg false path)
    (setattr self "_Project__registered" (ABool true))
    (λ r it, (∃ a, r = Ok a) ∧ phase os cur cfg true path it).
Proof.
  intros Hself it (Hos & Hcur & Hcfg & Hlen & Hreg & Hpath).
  unfold setattr. rewrite Hos, Hself. cbn [fst snd].
  split; [eexists; reflexivity|].
  repeat split; try assumption.
  - cbn. rewrite length_alter. exact Hlen.
  - unfold registered. rewrite state_dict_alter.
    destruct (dicts it !! state_cell) as [d|] eqn:Hd.
    + unfold registered_of. rewrite lookup_insert_eq. reflexivity.
    + apply lookup_ge_None in Hd. unfold state_cell in Hd. lia.
Qed.

Lemma hoare_bind_lift_ok {S A B} (P : S → Prop) (a : A) (k : A → M S B)
    (Q : Res B → S → Prop) :
  hoare P (k a) Q → hoare P (bind (lift_res (Ok a)) k) Q.
Proof. intros Hk. exact Hk. Qed.

Section ProjectFacts.

Variable read_config : string → ConfigFile.
Variable os_abspath : string → string.
Variable os_dirname : string → string.
Variable os_splitext_root : string → string.
Variable os_sep : ascii.
Variable import_module : string → Res unit.
Variable create_engine : Value → gmap string Value → Res nat.
Variable call_hook : nat → Res unit.
Variable dict_items : gmap string Value → list (string * Value).

Abbreviation parse := (_parse_config read_config).
Abbreviation register := (Project_register read_config os_abspath os_dirname
  os_splitext_root os_sep import_module create_engine call_hook
  dict_items).
Abbreviation init := (Project_init read_config os_abspath os_dirname
  os_splitext_root os_sep import_module create_engine call_hook
  dict_items).
Abbreviation current := (_get_current_project read_config os_abspath
  os_dirname os_splitext_root os_sep import_module create_engine call_hook
  dict_items).
Abbreviation calls := (run_calls read_config os_abspath os_dirname
  os_splitext_root os_sep import_module create_engine call_hook
  dict_items).

Ltac pure_step :=
  apply keeps_bind; [apply pure_keeps; auto with pure_db|intros ?].
Ltac set_step :=
  apply keeps_bind;
  [apply steady_keeps, setattr_steady; [assumption|discriminate]|intros ?].

Lemma setup_database_keeps os cur cfg flag path self :
  os !! self = Some state_cell →
  keeps (phase os cur cfg flag path)
    (_setup_database_connection create_engine dict_items self).
Proof.
  intros Hself. unfold _setup_database_connection.
  do 4 pure_step. set_step.
  apply keeps_bind; [apply pure_keeps, pure_getattr|intros ?].
  apply steady_keeps, setattr_steady; [assumption|discriminate].
Qed.

Lemma make_keeps os cur cfg flag path self :
  os !! self = Some state_cell →
  keeps (phase os cur cfg flag path)
    (_make import_module create_engine call_hook dict_items self).
Proof.
  intros Hself. unfold _make.
  do 6 pure_step.
  apply keeps_bind; [apply setup_database_keeps; assumption|intros ?].
  apply keeps_bind; [apply pure_keeps, pure_getattr|intros hooks].
  apply pure_keeps. destruct hooks; auto with pure_db.
Qed.

Ltac early Hraise :=
  apply hoare_bind_keeps;
  [apply pure_keeps; auto with pure_db
  |intros ? ? ?; left; apply Hraise; assumption
  |intros ?].
Ltac assign Hself :=
  apply hoare_bind_steady;
  [apply setattr_steady; [exact Hself|discriminate]|intros ?].

(** The registration step from a state that is not registered: either the
    file is refused and nothing is written, or its sections are merged; after
    the merge the step either raises before [sys.path] is touched, with the
    flag still unset, or appends the root directory once and sets the flag. *)
Lemma Project_register_spec os cur cfg path self config_path make :
  os !! self = Some state_cell →
  hoare (phase os cur cfg false path) (register self config_path make)
    (λ r it,
       match parse config_path with
       | Raise e => r = Raise e ∧ phase os cur cfg false path it
       | Ok parsed =>
           ((∃ e, r = Raise e)
            ∧ phase os cur (merge_config cfg parsed) false path it)
           ∨ phase os cur (merge_config cfg parsed) true
               (path ++ [os_dirname (os_abspath config_path)]) it
       end).
Proof.
  intros Hself. unfold Project_register.
  destruct (parse config_path) as [parsed|e].
  2:{ intros it Hit. split; [reflexivity|exact Hit]. }
  apply hoare_bind_lift_ok.
  apply hoare_bind_modify
    with (P' := phase os cur (merge_config cfg parsed) false path).
  { intros it (? & ? & ? & ? & ? & ?). repeat split; try assumption.
    cbn. congruence. }
  assert (Hraise : ∀ (e : Exn) it,
    phase os cur (merge_config cfg parsed) false path it →
    (∃ e', Raise e = Raise e' :> Res unit)
    ∧ phase os cur (merge_config cfg parsed) false path it) by eauto.
  assign Hself. do 4 (early Hraise). assign Hself. do 2 (early Hraise).
  assign Hself.
  apply hoare_bind_modify
    with (P' := phase os cur (merge_config cfg parsed) false
                  (path ++ [os_dirname (os_abspath config_path)])).
  { intros it (? & ? & ? & ? & ? & ?). repeat split; try assumption.
    cbn. congruence. }
  do 6 (assign Hself).
  apply hoare_bind
    with (R := λ _, phase os cur (merge_config cfg parsed) true
                      (path ++ [os_dirname (os_abspath config_path)])).
  { intros it Hit. destruct (setattr_flag _ _ _ _ _ Hself it Hit) as [[x Hx] H].
    rewrite Hx. exact H. }
  intros _. intros it Hit. right.
  destruct make.
  - apply (make_keeps _ _ _ _ _ _ Hself it Hit).
  - exact Hit.
Qed.

Lemma insert_snoc {A} (l : list A) (x y : A) :
  <[length l := y]> (l ++ [x]) = l ++ [y].
Proof.
  rewrite insert_app_r_alt by reflexivity. rewrite Nat.sub_diag. reflexivity.
Qed.

Lemma state_dict_enter tid it : state_dict (enter tid it) = state_dict it.
Proof.
  unfold state_dict, enter. cbn [dicts]. destruct (dicts it); reflexivity.
Qed.

Lemma instance_dict_enter tid it :
  instance_dict (enter tid it) (length (objects it)) = state_dict it.
Proof.
  rewrite <- (state_dict_enter tid it). unfold instance_dict, state_dict.
  cbn [enter objects dicts]. rewrite list_lookup_middle by reflexivity.
  reflexivity.
Qed.

Lemma Project_init_eq tid config_path make it :
  init tid config_path make it
  = if registered it then (Ok (length (objects it)), enter tid it)
    else match config_path with
         | None => (Raise (ProjectImportError no_path_message), enter tid it)
         | Some path =>
             match register (length (objects it)) path make (enter tid it) with
             | (Ok _, it') => (Ok (length (objects it)), it')
             | (Raise e, it') => (Raise e, it')
             end
         end.
Proof.
  unfold Project_init.
  unfold bind at 1, new_object. unfold bind at 1, bind_dict, modify.
  unfold bind at 1. unfold bind at 1, get_registered.
  assert (Henter :
    set_current_project <[tid := length (objects it)]>
      (set_objects (λ os, <[length (objects it) := state_cell]> os)
         (set_objects (λ os, os ++ [length (dicts it)])
            (set_dicts (λ ds, ds ++ [∅]) it))) = enter tid it).
  { unfold enter, set_current_project, set_objects, set_dicts.
    cbn [dicts objects config current_project sys_path].
    rewrite insert_snoc. reflexivity. }
  rewrite Henter, instance_dict_enter. fold (registered it).
  destruct (registered it); [reflexivity|].
  destruct config_path as [path|]; [|reflexivity].
  unfold bind, ret. cbn [negb].
  destruct (register _ path make (enter tid it)) as [[[]|e] it']; reflexivity.
Qed.

Lemma enter_phase tid it :
  phase (objects it ++ [state_cell])
    (<[tid := length (objects it)]> (current_project it))
    (config it) (registered it) (sys_path it) (enter tid it).
Proof.
  repeat split.
  - cbn. rewrite length_app. cbn. lia.
  - unfold registered. rewrite state_dict_enter. reflexivity.
Qed.









Lemma Project_init_register tid path make it :
  registered it = false →
  match parse path with
  | Raise e =>
      (init tid (Some path) make it).1 = Raise e
      ∧ registered (init tid (Some path) make it).2 = false
      ∧ config (init tid (Some path) make it).2 = config it
  | Ok parsed =>
      config (init tid (Some path) make it).2 = merge_config (config it) parsed
  end.
Proof.
  intros Hreg. rewrite Project_init_eq, Hreg.
  pose proof (enter_phase tid it) as Hphase. rewrite Hreg in Hphase.
  assert (Hself : (objects it ++ [state_cell]) !! length (objects it)
                  = Some state_cell) by (apply list_lookup_middle; reflexivity).
  pose proof (Project_register_spec _ _ _ _ _ path make Hself _ Hphase)
    as Hspec.
  cbn beta in Hspec.
  destruct (register _ path make (enter tid it)) as [[[]|e] it'];
    cbn [fst snd] in Hspec |- *;
    destruct (parse path) as [parsed|e'].
  - destruct Hspec as [[_ Hspec]|Hspec]; apply Hspec.
  - destruct Hspec as [Hspec _]. discriminate.
  - destruct Hspec as [[_ Hspec]|Hspec]; apply Hspec.
  - destruct Hspec as [[= ->] Hspec]. split; [reflexivity|].
    split; apply Hspec.
Qed.

(** As long as no construction got as far as the merge, the class-level
    configuration is the compiled-in one and nothing is registered. *)
Lemma unparsed_calls_defaults cs :
  (∀ tid path make, CallProject tid (Some path) make ∈ cs →
     ∃ e, parse path = Raise e) →
  config (calls cs) = default_config ∧ registered (calls cs) = false.
Proof.
  unfold run_calls. induction cs as [|c cs IH] using rev_ind; intros Hcs.
  - split; reflexivity.
  - destruct IH as [Hcfg Hreg].
    { intros tid path make Hin. apply (Hcs tid path make).
      apply elem_of_app. left. exact Hin. }
    rewrite foldl_snoc.
    set (it := foldl (λ it c, run_call read_config os_abspath os_dirname
                                os_splitext_root os_sep import_module
                                create_engine call_hook dict_items c it)
                 initial_interp cs) in *.
    assert (Hnone : ∀ tid mk,
              config (init tid None mk it).2 = default_config
              ∧ registered (init tid None mk it).2 = false).
    { intros tid mk. rewrite Project_init_eq, Hreg. cbn [snd].
      split; [exact Hcfg|]. unfold registered. rewrite state_dict_enter.
      exact Hreg. }
    destruct c as [tid [path|] make|tid]; cbn [run_call].
    + destruct (Hcs tid path make) as [e He].
      { apply elem_of_app. right. left. }
      pose proof (Project_init_register tid path make it Hreg) as H.
      rewrite He in H. destruct H as (_ & Hreg' & Hcfg').
      split; [rewrite Hcfg'; exact Hcfg|exact Hreg'].
    + apply Hnone.
    + unfold _get_current_project, bind, get_state.
      destruct (current_project it !! tid); [split; assumption|apply Hnone].
Qed.

(** C7, as the code has it.  A construction in a process where nothing is
    registered, and whose file parses, merges the file into the class-level
    configuration as it stands, key by key: a key of the file wins, a key
    the file lacks keeps the value the configuration held, a section the
    configuration lacks is taken as it is, and a section the file lacks
    stays as it was; this holds whether the rest of the constructor returns
    or raises.  The configuration held is the compiled-in one as long as no
    earlier construction got as far as the merge. *)
Theorem Project_init_merges_config tid path make it parsed :
  registered it = false →
  parse path = Ok parsed →
  let merged := config (init tid (Some path) make it).2 in
  merged = merge_config (config it) parsed
  ∧ (∀ section key,
       lookup2 merged section key
       = match lookup2 parsed section key with
         | Some v => Some v
         | None => lookup2 (config it) section key
         end)
  ∧ (∀ section, config it !! section = None →
       merged !! section = parsed !! section)
  ∧ (∀ section, parsed !! section = None →
       merged !! section = config it !! section)
  ∧ (∀ cs,
       (∀ tid' path' make', CallProject tid' (Some path') make' ∈ cs →
          ∃ e, parse path' = Raise e) →
       config (init tid (Some path) make (calls cs)).2
       = merge_config default_config parsed).
Proof.
  intros Hreg Hparse merged.
  assert (Hmerged : ∀ it', registered it' = false →
            config (init tid (Some path) make it').2
            = merge_config (config it') parsed).
  { intros it' Hreg'.
    pose proof (Project_init_register tid path make it' Hreg') as H.
    rewrite Hparse in H. exact H. }
  split; [exact (Hmerged it Hreg)|]. unfold merged. rewrite (Hmerged it Hreg).
  split; [|split; [|split]].
  - intros section key. apply merge_config_lookup2.
  - intros section Hnone. rewrite merge_config_lookup, Hnone.
    destruct (parsed !! section); reflexivity.
  - intros section Hnone. rewrite merge_config_lookup, Hnone. reflexivity.
  - intros cs Hcs. destruct (unparsed_calls_defaults cs Hcs) as [Hcfg Hreg'].
    rewrite (Hmerged _ Hreg'), Hcfg. reflexivity.
Qed.


End ProjectFacts.

Lemma Project_init_merges_config_witness :
  registered initial_interp = false
  ∧ _parse_config demo_read_config "demo.cfg"
    = Ok (convert_sections (dict_of_items [
            ("PROJECT", dict_of_items [
               ("NAME", "Demo");
               ("AUTHORIZED_EMAILS", "a@x.com,b@x.com")])]))
  ∧ config (demo_Project_init 0%nat (Some "demo.cfg") true initial_interp).2
    = merge_config default_config
        (convert_sections (dict_of_items [
           ("PROJECT", dict_of_items [
              ("NAME", "Demo");
              ("AUTHORIZED_EMAILS", "a@x.com,b@x.com")])])).
Proof.
  split; [reflexivity|]. split; [reflexivity|].
  exact (proj1 (Project_init_merges_config demo_read_config
                  (λ path, "/srv/" +:+ path) (λ _, "/srv") (λ _, "demo")
                  "/"%char (λ _, Ok tt) (λ _ _, Ok 1%nat) (λ _, Ok tt)
                  demo_dict_items 0%nat "demo.cfg" true initial_interp
                  (convert_sections (dict_of_items [
                     ("PROJECT", dict_of_items [
                        ("NAME", "Demo");
                        ("AUTHORIZED_EMAILS", "a@x.com,b@x.com")])]))
                  eq_refl eq_refl)).
Defined.

(** C7 as stated fails after a construction that raised past its merge.
    [Project('int.cfg')] merges its [SECRET_KEY] and then raises, the name
    being a number, with nothing registered; [Project('demo.cfg')] then
    registers, and [SECRET_KEY], which its file does not give, is not the
    compiled-in default. *)
Lemma Project_init_merges_over_earlier_file :
  (demo_Project_init 0%nat (Some "int.cfg") true initial_interp).1
  = Raise (AttributeError "lower")
  ∧ registered
      (demo_Project_init 0%nat (Some "int.cfg") true initial_interp).2 = false
  ∧ (∃ parsed, _parse_config demo_read_config "demo.cfg" = Ok parsed
               ∧ lookup2 parsed "FLASK" "SECRET_KEY" = None)
  ∧ lookup2 default_config "FLASK" "SECRET_KEY"
    = Some (VStr "a_default_unsafe_key")
  ∧ (demo_Project_init 0%nat (Some "demo.cfg") true
       (demo_Project_init 0%nat (Some "int.cfg") true initial_interp).2).1
    = Ok 1%nat
  ∧ lookup2
      (config
         (demo_Project_init 0%nat (Some "demo.cfg") true
            (demo_Project_init 0%nat (Some "int.cfg") true
               initial_interp).2).2)
      "FLASK" "SECRET_KEY"
    = Some (VStr "abc").
Proof.
  split; [vm_compute; reflexivity|]. split; [vm_compute; reflexivity|].
  split; [eexists; split; vm_compute; reflexivity|].
  repeat split; vm_compute; reflexivity.
Qed.



(** The test of the flag and the assignment that sets it are apart.  When a
    second thread constructs a project between the two, the first thread,
    which found the flag unset, goes on with the registration step: both
    register, and [sys.path] gets the root directory twice. *)
Lemma overlapping_constructions_register_twice :
  registered (enter 0 initial_interp) = false
  ∧ registered
      (demo_Project_init 1%nat (Some "demo.cfg") false
         (enter 0 initial_interp)).2 = true
  ∧ sys_path
      (demo_Project_register 0%nat "demo.cfg" false
         (demo_Project_init 1%nat (Some "demo.cfg") false
            (enter 0 initial_interp)).2).2
    = ["/srv"; "/srv"].
Proof. repeat split; vm_compute; reflexivity. Qed.

(** The two refusals of C5 the code does turn into the project import
    error: a path that cannot be opened and a [NAME] that is empty. *)
Lemma parse_config_unreadable read_config path :
  read_config path = Unreadable →
  _parse_config read_config path
  = Raise (ProjectImportError
             ("Unable to parse configuration file at " +:+ path +:+ ".")).
Proof. intros H. unfold _parse_config. rewrite H. reflexivity. Qed.

Lemma parse_config_empty_name read_config path secs name :
  read_config path = Sections secs →
  lookup2 (convert_sections secs) "PROJECT" "NAME" = Some name →
  truthy name = false →
  _parse_config read_config path
  = Raise (ProjectImportError "Missing project name.").
Proof.
  intros Hread Hname Hfalse. unfold _parse_config. rewrite Hread. cbn zeta.
  unfold lookup2 in Hname.
  destruct (convert_sections secs !! "PROJECT") as [project|]; [|discriminate].
  cbn in Hname. rewrite Hname, Hfalse. reflexivity.
Qed.

(** A [PROJECT] section without the key [NAME] is not: indexing the parsed
    dict raises first. *)
Lemma parse_config_missing_name read_config path secs project :
  read_config path = Sections secs →
  convert_sections secs !! "PROJECT" = Some project →
  project !! "NAME" = None →
  _parse_config read_config path = Raise (KeyError "NAME").
Proof.
  intros Hread Hproject Hname. unfold _parse_config.
  rewrite Hread. cbn zeta. rewrite Hproject, Hname. reflexivity.
Qed.

(** C5, at a file the code can receive: a [PROJECT] section that has a
    [DOMAIN] and no [NAME].  Initialization fails and nothing is registered,
    but the exception is the key error of the missing key, not the project
    import error; the unopenable file and the empty name next to it do raise
    the project import error. *)
Theorem Project_init_missing_name_key_error :
  demo_Project_init 0%nat (Some "noname.cfg") true initial_interp
  = (Raise (KeyError "NAME"), enter 0 initial_interp)
  ∧ registered (enter 0 initial_interp) = false
  ∧ (demo_Project_init 0%nat (Some "absent.cfg") true initial_interp).1
    = Raise (ProjectImportError
               "Unable to parse configuration file at absent.cfg.")
  ∧ (demo_Project_init 0%nat (Some "empty.cfg") true initial_interp).1
    = Raise (ProjectImportError "Missing project name.").
Proof. repeat split; vm_compute; reflexivity. Qed.

(** * More of the sign-in handlers *)

Ltac unfold_handler :=
  unfold catch_token, sign_out, sign_in, validate_token,
    get_user_info_from_token, urlopen_json, render_sign_in_out, login_user,
    logout_user, user_info_log, logger_debug, logger_warn, emit,
    set_current_user, getitem, User_get_from_id, bind, ret, raise, get_state,
    modify, lift_res;
  cbn [fst snd client_id all_users current_user trace negb].

Ltac split_cases :=
  repeat match goal with
         | |- context [match ?x with _ => _ end] =>
             lazymatch x with
             | context [match _ with _ => _ end] => fail
             | _ => destruct x eqn:?
             end;
             cbn [fst snd client_id all_users current_user trace negb] in *
         end.

Section HandlerExtras.

Variable provider : string → list (string * string) → Res Json.

(** X1. Whatever the request and the provider, [catch_token] only adds events
    to the trace and leaves the registry and the client id alone.  Either it
    logs nobody in and the session stays as it was, or the request carried a
    token, the token-info answer had no [error] member, the user-info answer
    gave an email that is a key of the registry, and exactly that user is
    logged in, once. *)
Theorem catch_token_login_sound req w :
  ∃ evs,
    (catch_token provider req w).2
    = extend w (current_user (catch_token provider req w).2) evs
    ∧ ((existsb is_login evs = false
        ∧ current_user (catch_token provider req w).2 = current_user w)
       ∨ ∃ token token_info user_infos email u,
           args req !! "access_token" = Some token
           ∧ provider (ENDPOINT_validate_token +:+ "?access_token=" +:+ token) []
             = Ok token_info
           ∧ token_info !! "error" = None
           ∧ provider ENDPOINT_get_user_info
               [("Authorization", "Bearer " +:+ token)] = Ok user_infos
           ∧ user_infos !! "email" = Some email
           ∧ all_users w !! email = Some u
           ∧ filter (λ e, is_login e = true) evs = [LoginUser u]
           ∧ current_user (catch_token provider req w).2 = Some u).
Proof.
  unfold_handler. split_cases.
  all: try (eexists; split;
            [unfold extend; cbn [client_id all_users current_user trace];
             rewrite <- ?app_assoc; reflexivity
            |left; split; reflexivity]).
  all: try (exists []; split; [destruct w; unfold extend; cbn;
              rewrite app_nil_r; reflexivity|left; split; reflexivity]).
  all: eexists; split;
    [unfold extend; cbn [client_id all_users current_user trace];
     rewrite <- ?app_assoc; reflexivity|].
  all: right; do 5 eexists; repeat split; eassumption || reflexivity.
Qed.

(** X2. The provider calls of one [catch_token] request, in order: none,
    the token-info call alone, or the token-info call followed by the
    user-info call, the latter only when the token-info answer arrived and
    had no [error] member.  Every call carries the token of the request. *)
Theorem catch_token_provider_calls req w :
  ∃ evs,
    trace (catch_token provider req w).2 = trace w ++ evs
    ∧ (filter (λ e, is_provider_call e = true) evs = []
       ∨ ∃ token,
           args req !! "access_token" = Some token
           ∧ (filter (λ e, is_provider_call e = true) evs
              = [token_info_call token]
              ∨ (filter (λ e, is_provider_call e = true) evs
                 = [token_info_call token; user_info_call token]
                 ∧ ∃ token_info,
                     provider (ENDPOINT_validate_token +:+ "?access_token="
                               +:+ token) [] = Ok token_info
                     ∧ token_info !! "error" = None))).
Proof.
  unfold_handler. split_cases.
  all: eexists; split; [rewrite <- ?app_assoc; try reflexivity|].
  all: try (symmetry; apply app_nil_r).
  all: try (left; reflexivity).
  all: right; eexists; split; [reflexivity|].
  all: try (left; reflexivity).
  all: right; split; [reflexivity|eexists; split; eassumption].
Qed.

(** X3. When the token-info call raises, [catch_token] lets that exception
    through: one debug entry and the call are on the trace, the user-info
    endpoint is not contacted and the session is left as it was. *)
Theorem catch_token_provider_down req w token e :
  args req !! "access_token" = Some token →
  provider (ENDPOINT_validate_token +:+ "?access_token=" +:+ token) []
    = Raise e →
  catch_token provider req w
  = (Raise e,
     extend w (current_user w)
       [AppLog DEBUG "Successfully caught access token.";
        token_info_call token]).
Proof.
  intros Hargs Hdown. unfold_handler. rewrite Hargs. cbn. rewrite Hdown. cbn.
  unfold extend. rewrite <- app_assoc. reflexivity.
Qed.

(** X4. When the token is valid and the user-info call raises,
    [catch_token] lets that exception through after the two calls: nobody is
    logged in and the session is left as it was. *)
Theorem catch_token_user_info_down req w token token_info e :
  args req !! "access_token" = Some token →
  provider (ENDPOINT_validate_token +:+ "?access_token=" +:+ token) []
    = Ok token_info →
  token_info !! "error" = None →
  provider ENDPOINT_get_user_info [("Authorization", "Bearer " +:+ token)]
    = Raise e →
  catch_token provider req w
  = (Raise e,
     extend w (current_user w)
       [AppLog DEBUG "Successfully caught access token.";
        token_info_call token;
        AppLog DEBUG "Access token is valid.";
        user_info_call token]).
Proof.
  intros Hargs Hinfo Herr Hdown. unfold_handler. rewrite Hargs. cbn.
  rewrite Hinfo. cbn. rewrite Herr. cbn. rewrite Hdown. cbn.
  unfold extend. rewrite <- !app_assoc. reflexivity.
Qed.

(** X5. When the user-info answer has no [email] member, indexing it
    raises the key error after both calls and the three debug entries:
    nobody is logged in, no warning is logged and nothing is rendered. *)
Theorem catch_token_no_email req w token token_info user_infos :
  args req !! "access_token" = Some token →
  provider (ENDPOINT_validate_token +:+ "?access_token=" +:+ token) []
    = Ok token_info →
  token_info !! "error" = None →
  provider ENDPOINT_get_user_info [("Authorization", "Bearer " +:+ token)]
    = Ok user_infos →
  user_infos !! "email" = None →
  catch_token provider req w
  = (Raise (KeyError "email"),
     extend w (current_user w)
       [AppLog DEBUG "Successfully caught access token.";
        token_info_call token;
        AppLog DEBUG "Access token is valid.";
        user_info_call token;
        AppLog DEBUG "Gathered user infos successfully."]).
Proof.
  intros Hargs Hinfo Herr Huser Hemail. unfold_handler. rewrite Hargs. cbn.
  rewrite Hinfo. cbn. rewrite Herr. cbn. rewrite Huser. cbn.
  rewrite Hemail. cbn.
  unfold extend. rewrite <- !app_assoc. reflexivity.
Qed.

End HandlerExtras.


Lemma get_from_id_lookup (registry : gmap string User) id :
  User_get_from_id registry id = registry !! id.
Proof. unfold User_get_from_id. destruct (registry !! id); reflexivity. Qed.


(** * The loader, the client id and the registry as a set *)

(** X8. After [make credentials], for a request whose texts are ASCII and
    credentials whose [str] is [cid], the login URL is the authorization
    endpoint, a question mark and a query of five parameters separated by
    ampersands, one of which is [client_id=] followed by [quote_plus] of
    [cid]; credentials that are [None] are sent as the text [None].  [make]
    touches neither the registry, nor the session, nor the trace. *)
Theorem make_client_id credentials cid req w :
  is_ascii (url_root req) = true →
  (∀ v, args req !! "next" = Some v → is_ascii v = true) →
  py_str credentials = Ok cid →
  ∃ query,
    get_google_login_url req (make credentials w).2
    = Ok (ENDPOINT_get_token_or_code +:+ "?" +:+ query)
    ∧ "client_id=" +:+ quote_plus cid ∈ split "&" query
    ∧ length (split "&" query) = 5%nat
    ∧ (credentials = PyNone → "client_id=None" ∈ split "&" query)
    ∧ all_users (make credentials w).2 = all_users w
    ∧ current_user (make credentials w).2 = current_user w
    ∧ trace (make credentials w).2 = trace w.
Proof.
  intros Hroot Hnext Hcid.
  destruct (login_url_shape req (make credentials w).2 cid Hroot Hnext Hcid)
    as (query & Hurl & Hsplit & _).
  exists query. split; [exact Hurl|].
  assert (Hin : "client_id=" +:+ quote_plus cid ∈ split "&" query)
    by (rewrite Hsplit; do 4 right; left).
  split; [exact Hin|]. split; [rewrite Hsplit; reflexivity|].
  split; [|repeat split].
  intros ->. injection Hcid as <-. exact Hin.
Qed.

(** X9. On a registry filled by [User.populate] from a configured value,
    a user the loader finds for an id has that id, is found again through
    [get_id], and the id is one of the configured entries. *)
Theorem load_user_get_id value w id u :
  all_users w = User_populate (authorized_emails value) →
  load_user w id = Some u →
  get_id u = id
  ∧ load_user w (get_id u) = Some u
  ∧ id ∈ authorized_emails value.
Proof.
  intros Hall Hload. unfold load_user in *. rewrite Hall in *.
  rewrite get_from_id_populate in Hload.
  destruct (decide (id ∈ authorized_emails value)) as [Hin|]; [|discriminate].
  injection Hload as <-. split; [reflexivity|]. split; [|exact Hin].
  cbn. rewrite get_from_id_populate, decide_True by exact Hin. reflexivity.
Qed.

(** X10. The registry [User.populate] builds is keyed by the entries as a
    set: its keys are the entries, two lists with the same entries give the
    same registry whatever their order and repetitions, and it never holds
    more users than there were entries. *)
Theorem populate_set (l1 l2 : list string) :
  (dom (User_populate l1) = list_to_set l1)
  ∧ ((∀ e, e ∈ l1 ↔ e ∈ l2) → User_populate l1 = User_populate l2)
  ∧ (size (User_populate l1) ≤ length l1)%nat.
Proof.
  assert (Hdom : ∀ l : list string, dom (User_populate l) = list_to_set l).
  { intros l. apply set_eq. intros e. rewrite elem_of_dom, elem_of_list_to_set.
    rewrite <- get_from_id_lookup, get_from_id_populate.
    destruct (decide (e ∈ l)) as [Hin|Hnin].
    - split; [intros _; exact Hin|intros _; eexists; reflexivity].
    - split; [intros [? [=]]|intros H; contradiction]. }
  split; [apply Hdom|]. split.
  - intros Hsame. apply map_eq. intros e.
    rewrite <- !get_from_id_lookup, !get_from_id_populate.
    destruct (decide (e ∈ l1)) as [H1|H1], (decide (e ∈ l2)) as [H2|H2];
      try reflexivity; exfalso; [apply H2, Hsame, H1|apply H1, Hsame, H2].
  - rewrite <- size_dom, Hdom.
    induction l1 as [|e l1 IH].
    { rewrite list_to_set_nil, size_empty. reflexivity. }
    rewrite list_to_set_cons, size_union_alt, size_singleton.
    pose proof (subseteq_size (list_to_set l1 ∖ {[e]} : gset string)
                  (list_to_set l1) (subseteq_difference_l _ _ _ (reflexivity _))).
    cbn [length]. lia.
Qed.

Lemma default_project_lookup :
  default_config !! "PROJECT"
  = Some (dict_of_items [
       ("NAME", VStr ""); ("DOMAIN", VStr ""); ("SUBDOMAIN", VStr "");
       ("MODULES", VStr ""); ("FLASK_ROOT_FOLDER", VStr "app");
       ("FLASK_STATIC_FOLDER", VStr "static");
       ("FLASK_TEMPLATE_FOLDER", VStr "templates");
       ("COMMIT_ON_TEARDOWN", VBool true)]).
Proof. vm_compute. reflexivity. Qed.

(** X12. The compiled-in defaults have no [AUTHORIZED_EMAILS] key, so on a
    configuration merged from the defaults the module-level populate raises
    the key error unless the file's [PROJECT] section gives the key; when the
    file gives a string the registry is built from it, and a converted value
    that is not a string has no [split]. *)
Theorem populate_from_merged_config (parsed : gmap string (gmap string Value)) :
  populate_from_config (merge_config default_config parsed)
  = match lookup2 parsed "PROJECT" "AUTHORIZED_EMAILS" with
    | None => Raise (KeyError "AUTHORIZED_EMAILS")
    | Some (VStr value) => Ok (User_populate (authorized_emails value))
    | Some _ => Raise (AttributeError "split")
    end.
Proof.
  pose proof (merge_config_lookup2 default_config parsed
                "PROJECT" "AUTHORIZED_EMAILS") as Hkey.
  assert (Hdef : lookup2 default_config "PROJECT" "AUTHORIZED_EMAILS" = None)
    by (vm_compute; reflexivity).
  rewrite Hdef in Hkey.
  assert (Hsec : is_Some (merge_config default_config parsed !! "PROJECT")).
  { rewrite merge_config_lookup, default_project_lookup.
    destruct (parsed !! "PROJECT"); eexists; reflexivity. }
  destruct Hsec as [project Hproject].
  unfold populate_from_config. unfold lookup2 in Hkey at 1.
  rewrite Hproject in Hkey |- *. cbn in Hkey. rewrite Hkey.
  destruct (lookup2 parsed "PROJECT" "AUTHORIZED_EMAILS") as [[]|]; reflexivity.
Qed.

(** * The configured entries *)

(** X11. Every entry the module-level code hands to [User.populate] is
    non-empty, holds no comma and has no white space at either end:
    stripping it again changes nothing. *)
Theorem authorized_emails_clean value email :
  email ∈ authorized_emails value →
  email ≠ ""
  ∧ char_in "," email = false
  ∧ lstrip email = email
  ∧ rstrip email = email
  ∧ strip email = email.
Proof.
  unfold authorized_emails. intros Hin.
  apply list_elem_of_fmap in Hin as (raw & -> & Hraw).
  apply list_elem_of_filter in Hraw as [Hne Hraw].
  destruct (strip_clean raw) as [Hl Hr].
  split; [exact Hne|]. split.
  { apply char_in_strip. apply (split_go_fields "," "" value); [reflexivity|].
    exact Hraw. }
  split; [exact Hl|]. split; [exact Hr|].
  unfold strip at 1. rewrite Hl. exact Hr.
Qed.

(** * More of the project bootstrap *)

Lemma list_alter_alter {A} (f g : A → A) (l : list A) i :
  alter f i (alter g i l) = alter (f ∘ g) i l.
Proof.
  revert i. induction l as [|x l IH]; intros [|i]; try reflexivity.
  cbn. f_equal. apply IH.
Qed.

Lemma bind_ok {S A B} (c : M S A) (k : A → M S B) s a s' :
  c s = (Ok a, s') → bind c k s = k a s'.
Proof. intros H. unfold bind. rewrite H. reflexivity. Qed.

Lemma bind_pure_ok {S A B} (c : M S A) (k : A → M S B) a s :
  (∀ s', c s' = (Ok a, s')) → bind c k s = k a s.
Proof. intros H. unfold bind. rewrite H. reflexivity. Qed.

Lemma bind_lift_ok {S A B} (a : A) (k : A → M S B) s :
  bind (lift_res (Ok a)) k s = k a s.
Proof. reflexivity. Qed.

Lemma bind_modify {S B} (f : S → S) (k : unit → M S B) s :
  bind (modify f) k s = k tt (f s).
Proof. reflexivity. Qed.

Lemma bind_get_state {S B} (k : S → M S B) s : bind get_state k s = k s s.
Proof. reflexivity. Qed.

Lemma bind_getitem {S V B} (d : gmap string V) key v (k : V → M S B) s :
  d !! key = Some v → bind (getitem d key) k s = k v s.
Proof. intros H. unfold bind, getitem. rewrite H. reflexivity. Qed.

Lemma bind_setattr {B} self name a (k : unit → M Interp B) it cell :
  objects it !! self = Some cell →
  bind (setattr self name a) k it
  = k tt (set_dicts (alter (<[name := a]>) cell) it).
Proof. intros H. unfold bind, setattr. rewrite H. reflexivity. Qed.

Section ProjectExtras.

Variable read_config : string → ConfigFile.
Variable os_abspath : string → string.
Variable os_dirname : string → string.
Variable os_splitext_root : string → string.
Variable os_sep : ascii.
Variable import_module : string → Res unit.
Variable create_engine : Value → gmap string Value → Res nat.
Variable call_hook : nat → Res unit.
Variable dict_items : gmap string Value → list (string * Value).

Abbreviation parse := (_parse_config read_config).
Abbreviation register := (Project_register read_config os_abspath os_dirname
  os_splitext_root os_sep import_module create_engine call_hook
  dict_items).
Abbreviation init := (Project_init read_config os_abspath os_dirname
  os_splitext_root os_sep import_module create_engine call_hook
  dict_items).
Abbreviation current := (_get_current_project read_config os_abspath
  os_dirname os_splitext_root os_sep import_module create_engine call_hook
  dict_items).
Abbreviation calls := (run_calls read_config os_abspath os_dirname
  os_splitext_root os_sep import_module create_engine call_hook
  dict_items).
Abbreviation make_components := (_make import_module create_engine call_hook
  dict_items).

(** X13. [Project()] without a path, in a process where nothing is
    registered, raises the project import error, but only after the new
    instance became the thread's current project: nothing is registered, yet
    [_get_current_project] now returns that unregistered instance instead of
    raising, while on a thread without a current project it raises the same
    error. *)
Theorem Project_without_path tid make it :
  registered it = false →
  init tid None make it
  = (Raise (ProjectImportError no_path_message), enter tid it)
  ∧ registered (enter tid it) = false
  ∧ current tid (enter tid it) = (Ok (length (objects it)), enter tid it)
  ∧ (current_project it !! tid = None →
     current tid it
     = (Raise (ProjectImportError no_path_message), enter tid it)).
Proof.
  intros Hreg.
  assert (Hinit : ∀ mk, init tid None mk it
            = (Raise (ProjectImportError no_path_message), enter tid it)).
  { intros mk. rewrite Project_init_eq, Hreg. reflexivity. }
  split; [apply Hinit|]. split.
  { unfold registered. rewrite state_dict_enter. exact Hreg. }
  split.
  - unfold _get_current_project, bind, get_state. cbn [enter current_project].
    rewrite lookup_insert_eq. reflexivity.
  - intros Hnone. unfold _get_current_project, bind, get_state.
    rewrite Hnone. apply Hinit.
Qed.

(** X14. Whenever [Project(...)] returns, the instance is the newly
    allocated object, it is registered, it reads the shared state dict and it
    is the thread's current project.  If a project was registered before,
    nothing else changed; otherwise a path was given, its file parsed, the
    configuration is the merge with the file and the directory of the path
    was appended to [sys.path]. *)
Theorem Project_init_returns tid config_path make it self it' :
  init tid config_path make it = (Ok self, it') →
  self = length (objects it)
  ∧ registered it' = true
  ∧ instance_dict it' self = state_dict it'
  ∧ current_project it' !! tid = Some self
  ∧ (registered it = true → it' = enter tid it)
  ∧ (registered it = false →
     ∃ path parsed,
       config_path = Some path
       ∧ parse path = Ok parsed
       ∧ config it' = merge_config (config it) parsed
       ∧ sys_path it' = sys_path it ++ [os_dirname (os_abspath path)]).
Proof.
  rewrite Project_init_eq. destruct (registered it) eqn:Hreg.
  - intros [= <- <-]. split; [reflexivity|].
    split; [unfold registered; rewrite state_dict_enter; exact Hreg|].
    split; [rewrite instance_dict_enter, state_dict_enter; reflexivity|].
    split; [apply lookup_insert_eq|]. split; [reflexivity|discriminate].
  - destruct config_path as [path|]; [|discriminate].
    pose proof (enter_phase tid it) as Hphase. rewrite Hreg in Hphase.
    assert (Hself : (objects it ++ [state_cell]) !! length (objects it)
                    = Some state_cell) by (apply list_lookup_middle; reflexivity).
    pose proof (Project_register_spec read_config os_abspath os_dirname
                  os_splitext_root os_sep import_module create_engine call_hook
                  dict_items
                  _ _ _ _ _ path make Hself _ Hphase) as Hspec.
    cbn beta in Hspec.
    destruct (register _ path make (enter tid it)) as [[[]|e] it1];
      [|discriminate].
    cbn [fst snd] in Hspec. intros [= <- <-].
    destruct (parse path) as [parsed|e] eqn:Hparse;
      [|destruct Hspec; discriminate].
    destruct Hspec as [[[e He] _]|Hspec]; [discriminate|].
    destruct Hspec as (Hos & Hcur & Hcfg & Hlen & Hflag & Hpath).
    split; [reflexivity|]. split; [exact Hflag|].
    split.
    { unfold instance_dict, state_dict. rewrite Hos, Hself. reflexivity. }
    split; [rewrite Hcur; apply lookup_insert_eq|].
    split; [discriminate|]. intros _. exists path, parsed.
    repeat split; reflexivity || assumption.
Qed.

Lemma Project_register_run self path make it parsed project domain_option
    subdomain_option name :
  objects it !! self = Some state_cell →
  parse path = Ok parsed →
  merge_config (config it) parsed !! "PROJECT" = Some project →
  project !! "DOMAIN" = Some domain_option →
  project !! "SUBDOMAIN" = Some subdomain_option →
  truthy domain_option = true ∨ project !! "NAME" = Some (VStr name) →
  register self path make it
  = (if make then make_components self else ret tt)
      (mkInterp
         (alter (registration_attrs (os_dirname (os_abspath path))
                   (if truthy domain_option then domain_option
                    else VStr (domain_of_name name))
                   (if truthy subdomain_option then subdomain_option
                    else VStr (replace_char os_sep "-" (os_splitext_root path))))
            state_cell (dicts it))
         (objects it) (merge_config (config it) parsed) (current_project it)
         (sys_path it ++ [os_dirname (os_abspath path)])).
Proof.
  intros Hself Hparse Hproject Hdomain Hsub Hname.
  unfold Project_register. rewrite Hparse, bind_lift_ok, bind_modify.
  rewrite (bind_setattr _ _ _ _ _ state_cell) by exact Hself.
  rewrite bind_get_state.
  rewrite (bind_getitem _ _ project) by exact Hproject.
  rewrite (bind_getitem _ _ domain_option) by exact Hdomain.
  rewrite (bind_pure_ok _ _ (if truthy domain_option then domain_option
                             else VStr (domain_of_name name))).
  2:{ intros s'. unfold value_or.
      destruct (truthy domain_option); [reflexivity|].
      destruct Hname as [?|Hname]; [discriminate|].
      rewrite (bind_getitem _ _ (VStr name)) by exact Hname. reflexivity. }
  rewrite (bind_setattr _ _ _ _ _ state_cell) by exact Hself.
  rewrite (bind_getitem _ _ subdomain_option) by exact Hsub.
  rewrite (bind_pure_ok _ _ (if truthy subdomain_option then subdomain_option
                             else VStr (replace_char os_sep "-"
                                          (os_splitext_root path)))).
  2:{ intros s'. unfold value_or.
      destruct (truthy subdomain_option); reflexivity. }
  rewrite (bind_setattr _ _ _ _ _ state_cell) by exact Hself.
  rewrite bind_modify.
  do 7 (rewrite (bind_setattr _ _ _ _ _ state_cell) by exact Hself).
  cbv beta iota delta [set_dicts set_config set_sys_path objects dicts
                       config current_project sys_path].
  rewrite !list_alter_alter. reflexivity.
Qed.

Lemma instance_dict_state_cell it self :
  objects it !! self = Some state_cell → instance_dict it self = state_dict it.
Proof. intros H. unfold instance_dict, state_dict. rewrite H. reflexivity. Qed.

Lemma setattr_keeps_attr self name a attr (v : option Attr) :
  name ≠ attr →
  keeps (λ it, state_dict it !! attr = v) (setattr self name a).
Proof.
  intros Hne it Hit. unfold setattr.
  destruct (objects it !! self) as [cell|]; [|exact Hit].
  cbn [snd]. unfold state_dict, set_dicts. cbn [dicts].
  destruct (decide (cell = state_cell)) as [->|Hcell].
  - rewrite list_lookup_alter_eq. unfold state_dict in Hit.
    destruct (dicts it !! state_cell); [|exact Hit].
    cbn. rewrite lookup_insert_ne by exact Hne. exact Hit.
  - rewrite list_lookup_alter_ne by exact Hcell. exact Hit.
Qed.

Lemma make_keeps_attr self attr (v : option Attr) :
  attr ≠ "_engine" → attr ≠ "session" →
  keeps (λ it, state_dict it !! attr = v) (make_components self).
Proof.
  intros Hengine Hsession. unfold _make.
  do 6 (apply keeps_bind; [apply pure_keeps; auto with pure_db|intros ?]).
  apply keeps_bind.
  { unfold _setup_database_connection.
    do 4 (apply keeps_bind; [apply pure_keeps; auto with pure_db|intros ?]).
    apply keeps_bind; [apply setattr_keeps_attr; congruence|intros ?].
    apply keeps_bind; [apply pure_keeps, pure_getattr|intros ?].
    apply setattr_keeps_attr; congruence. }
  intros ?.
  apply keeps_bind; [apply pure_keeps, pure_getattr|intros hooks].
  apply pure_keeps. destruct hooks; auto with pure_db.
Qed.

Lemma registration_attributes tid path it parsed project domain_option
    subdomain_option name :
  registered it = false →
  parse path = Ok parsed →
  merge_config (config it) parsed !! "PROJECT" = Some project →
  project !! "DOMAIN" = Some domain_option →
  project !! "SUBDOMAIN" = Some subdomain_option →
  truthy domain_option = true ∨ project !! "NAME" = Some (VStr name) →
  let root_dir := os_dirname (os_abspath path) in
  let domain := if truthy domain_option then domain_option
                else VStr (domain_of_name name) in
  let subdomain := if truthy subdomain_option then subdomain_option
                   else VStr (replace_char os_sep "-" (os_splitext_root path)) in
  let attrs := registration_attrs root_dir domain subdomain (state_dict it) in
  (∃ it', init tid (Some path) false it = (Ok (length (objects it)), it')
          ∧ instance_dict it' (length (objects it)) = attrs
          ∧ state_dict it' = attrs
          ∧ config it' = merge_config (config it) parsed
          ∧ sys_path it' = sys_path it ++ [root_dir])
  ∧ ∀ make attr, attr ≠ "_engine" → attr ≠ "session" →
      state_dict (init tid (Some path) make it).2 !! attr = attrs !! attr.
Proof.
  intros Hreg Hparse Hproject Hdomain Hsub Hname root_dir domain subdomain attrs.
  set (it1 := mkInterp
         (alter (registration_attrs root_dir domain subdomain) state_cell
            (dicts it ++ [∅]))
         (objects it ++ [state_cell]) (merge_config (config it) parsed)
         (<[tid := length (objects it)]> (current_project it))
         (sys_path it ++ [root_dir])).
  assert (Hself : objects (enter tid it) !! length (objects it)
                  = Some state_cell)
    by (apply list_lookup_middle; reflexivity).
  assert (Hrun : ∀ make,
            register (length (objects it)) path make (enter tid it)
            = (if make then make_components (length (objects it)) else ret tt)
                it1).
  { intros make.
    apply (Project_register_run (length (objects it)) path make
             (enter tid it) parsed project domain_option subdomain_option
             name Hself Hparse Hproject Hdomain Hsub Hname). }
  assert (Hattrs : state_dict it1 = attrs).
  { unfold state_dict, it1. cbn [dicts]. rewrite list_lookup_alter_eq.
    unfold attrs, state_dict. destruct (dicts it); reflexivity. }
  split.
  - exists it1. rewrite Project_init_eq, Hreg, (Hrun false).
    split; [reflexivity|]. split.
    { rewrite <- Hattrs. apply instance_dict_state_cell.
      apply list_lookup_middle. reflexivity. }
    split; [exact Hattrs|]. split; reflexivity.
  - intros make attr Hengine Hsession.
    rewrite Project_init_eq, Hreg, (Hrun make).
    destruct make.
    + pose proof (make_keeps_attr (length (objects it)) attr (attrs !! attr)
                    Hengine Hsession it1
                    (f_equal (λ d, d !! attr) Hattrs)) as Hkeep.
      cbv beta in Hkeep.
      destruct (make_components (length (objects it)) it1) as [[[]|e] it'];
        exact Hkeep.
    + unfold ret. cbv beta iota delta [snd]. rewrite Hattrs. reflexivity.
Qed.

(** The registration step when [DOMAIN] is empty and the name is not a
    string (a number or a boolean, after [convert]): [lower] is missing, and
    the step raises with the file merged and [root_dir] set. *)
Lemma Project_register_bad_name self path make it parsed project
    domain_option name :
  objects it !! self = Some state_cell →
  parse path = Ok parsed →
  merge_config (config it) parsed !! "PROJECT" = Some project →
  project !! "DOMAIN" = Some domain_option →
  truthy domain_option = false →
  project !! "NAME" = Some name →
  (∀ s, name ≠ VStr s) →
  register self path make it
  = (Raise (AttributeError "lower"),
     mkInterp
       (alter (<["root_dir" := AStr (os_dirname (os_abspath path))]>)
          state_cell (dicts it))
       (objects it) (merge_config (config it) parsed) (current_project it)
       (sys_path it)).
Proof.
  intros Hself Hparse Hproject Hdomain Hfalse Hname Hnot.
  unfold Project_register. rewrite Hparse, bind_lift_ok, bind_modify.
  rewrite (bind_setattr _ _ _ _ _ state_cell) by exact Hself.
  rewrite bind_get_state.
  rewrite (bind_getitem _ _ project) by exact Hproject.
  rewrite (bind_getitem _ _ domain_option) by exact Hdomain.
  unfold bind at 1, value_or. rewrite Hfalse.
  rewrite (bind_getitem _ _ name) by exact Hname.
  unfold bind at 1, value_lower.
  destruct name as [flag|n|s0]; [| |destruct (Hnot s0 eq_refl)].
  all: unfold raise;
    cbv beta iota delta [set_dicts set_config set_sys_path objects dicts
                         config current_project sys_path];
    reflexivity.
Qed.

(** X15. A first [Project(path, make=False)] whose file parses, in a
    configuration that has the [DOMAIN] and [SUBDOMAIN] options, as the
    compiled-in one has.  When [DOMAIN] is set or the name is a string, the
    constructor returns with the ten attributes of the registration in the
    shared dict: [root_dir] is the directory of the path, [domain] is the
    [DOMAIN] option or, when that is empty, the lowered name with every run
    of non-word characters replaced by an underscore, [subdomain] is the
    [SUBDOMAIN] option or the path without its extension with separators
    turned into dashes; [flask], [celery], [session] and [_engine] are [None]
    and the hook list is empty.  When [DOMAIN] is empty and the name is not
    a string, the constructor raises the attribute error of [lower]: the file
    is merged and [root_dir] is set, nothing is registered and [sys.path] is
    as it was. *)
Theorem Project_init_attributes tid path it parsed project domain_option
    subdomain_option :
  registered it = false →
  parse path = Ok parsed →
  merge_config (config it) parsed !! "PROJECT" = Some project →
  project !! "DOMAIN" = Some domain_option →
  project !! "SUBDOMAIN" = Some subdomain_option →
  let root_dir := os_dirname (os_abspath path) in
  let subdomain := if truthy subdomain_option then subdomain_option
                   else VStr (replace_char os_sep "-" (os_splitext_root path)) in
  (∀ name,
     truthy domain_option = true ∨ project !! "NAME" = Some (VStr name) →
     let domain := if truthy domain_option then domain_option
                   else VStr (domain_of_name name) in
     let attrs := registration_attrs root_dir domain subdomain (state_dict it) in
     ∃ it', init tid (Some path) false it = (Ok (length (objects it)), it')
            ∧ instance_dict it' (length (objects it)) = attrs
            ∧ state_dict it' = attrs
            ∧ config it' = merge_config (config it) parsed
            ∧ sys_path it' = sys_path it ++ [root_dir])
  ∧ (∀ name make,
       truthy domain_option = false →
       project !! "NAME" = Some name →
       (∀ s, name ≠ VStr s) →
       ∃ it', init tid (Some path) make it
              = (Raise (AttributeError "lower"), it')
              ∧ registered it' = false
              ∧ state_dict it' = <["root_dir" := AStr root_dir]> (state_dict it)
              ∧ config it' = merge_config (config it) parsed
              ∧ sys_path it' = sys_path it).
Proof.
  intros Hreg Hparse Hproject Hdomain Hsub root_dir subdomain. split.
  - intros name Hname.
    apply (registration_attributes tid path it parsed project domain_option
             subdomain_option name Hreg Hparse Hproject Hdomain Hsub Hname).
  - intros name make Hfalse Hname Hnot.
    assert (Hself : objects (enter tid it) !! length (objects it)
                    = Some state_cell)
      by (apply list_lookup_middle; reflexivity).
    rewrite Project_init_eq, Hreg.
    rewrite (Project_register_bad_name (length (objects it)) path make
               (enter tid it) parsed project domain_option name
               Hself Hparse Hproject Hdomain Hfalse Hname Hnot).
    eexists. split; [reflexivity|].
    assert (Hstate : ∀ os cfg cur sp,
              state_dict (mkInterp
                (alter (<["root_dir" := AStr root_dir]>) state_cell
                   (dicts (enter tid it))) os cfg cur sp)
              = <["root_dir" := AStr root_dir]> (state_dict it)).
    { intros. unfold state_dict, enter. cbn [dicts].
      rewrite list_lookup_alter_eq. destruct (dicts it); reflexivity. }
    split.
    { unfold registered. rewrite Hstate. unfold registered_of.
      rewrite lookup_insert_ne by discriminate. exact Hreg. }
    split; [apply Hstate|]. split; reflexivity.
Qed.

End ProjectExtras.

Lemma lower_domain_char c :
  is_word (lower_char c) = true → is_domain_char (lower_char c) = true.
Proof. destruct c as [[] [] [] [] [] [] [] []]; vm_compute; intros H; exact H. Qed.

Lemma domain_char_fixed c :
  is_domain_char c = true → lower_char c = c ∧ is_word c = true.
Proof.
  destruct c as [[] [] [] [] [] [] [] []]; vm_compute; intros H;
    (discriminate || (split; reflexivity)).
Qed.

Lemma sub_nonword_lower_chars in_run s :
  all_chars is_domain_char (sub_nonword_go in_run (lower s)) = true.
Proof.
  revert in_run. induction s as [|c s IH]; intros in_run; [reflexivity|].
  cbn [lower sub_nonword_go].
  destruct (is_word (lower_char c)) eqn:Hword.
  - cbn [all_chars]. rewrite lower_domain_char by exact Hword. apply IH.
  - destruct in_run; [apply IH|]. cbn [all_chars]. apply IH.
Qed.

Lemma domain_chars_fixed in_run s :
  all_chars is_domain_char s = true →
  lower s = s ∧ sub_nonword_go in_run s = s.
Proof.
  revert in_run. induction s as [|c s IH]; intros in_run H; [split; reflexivity|].
  cbn [all_chars] in H. apply andb_true_iff in H as [Hc Hs].
  destruct (domain_char_fixed c Hc) as [Hlow Hword].
  cbn [lower sub_nonword_go]. rewrite Hlow, Hword.
  destruct (IH false Hs) as [-> ->]. split; reflexivity.
Qed.

(** X16. The domain derived from a project name holds only lowercase
    letters, digits and underscores; deriving is idempotent, and a name
    already made of such characters is its own domain. *)
Theorem domain_of_name_sanitized name :
  all_chars is_domain_char (domain_of_name name) = true
  ∧ domain_of_name (domain_of_name name) = domain_of_name name
  ∧ (all_chars is_domain_char name = true → domain_of_name name = name).
Proof.
  assert (Hchars : all_chars is_domain_char (domain_of_name name) = true)
    by apply sub_nonword_lower_chars.
  assert (Hfix : ∀ s, all_chars is_domain_char s = true → domain_of_name s = s).
  { intros s Hs. unfold domain_of_name, sub_nonword.
    destruct (domain_chars_fixed false s Hs) as [-> ->]. reflexivity. }
  split; [exact Hchars|]. split; [apply Hfix, Hchars|apply Hfix].
Qed.

(** * The merge again, and the imports of [_make] *)

(** X17. The merge of a parsed file into the configuration: merging the
    same file a second time changes nothing, merging an empty file changes
    nothing, and the sections of the result are those of either side. *)
Theorem merge_config_idempotent (cfg parsed : gmap string (gmap string Value)) :
  merge_config (merge_config cfg parsed) parsed = merge_config cfg parsed
  ∧ merge_config cfg ∅ = cfg
  ∧ (∀ section, is_Some (merge_config cfg parsed !! section)
                ↔ is_Some (cfg !! section) ∨ is_Some (parsed !! section)).
Proof.
  split; [|split].
  - apply map_eq. intros s. rewrite !merge_config_lookup.
    destruct (parsed !! s) as [items|]; [|reflexivity].
    destruct (cfg !! s) as [known|]; f_equal.
    + rewrite (assoc_L (∪)), (idemp_L (∪)). reflexivity.
    + apply (idemp_L (∪)).
  - apply map_eq. intros s. rewrite merge_config_lookup, lookup_empty.
    reflexivity.
  - intros s. rewrite merge_config_lookup.
    destruct (parsed !! s), (cfg !! s); split; intros H;
      first [by eauto|left; exact H|destruct H as [H|H]; exact H].
Qed.

Lemma for_each_lift {S A} (l : list A) (f : A → Res unit) (s : S) :
  for_each l (λ x, lift_res (f x)) s = (first_failure (f <$> l), s).
Proof.
  induction l as [|x l IH]; [reflexivity|].
  cbn [for_each fmap list_fmap first_failure]. unfold bind, lift_res.
  destruct (f x) as [[]|e]; [exact IH|reflexivity].
Qed.

Lemma first_failure_app l1 l2 :
  first_failure (l1 ++ l2)
  = match first_failure l1 with Ok _ => first_failure l2 | Raise e => Raise e end.
Proof.
  induction l1 as [|[[]|e] l1 IH]; cbn; [reflexivity|exact IH|reflexivity].
Qed.

Lemma split_go_nonempty sep cur s : (1 ≤ length (split_go sep cur s))%nat.
Proof.
  revert cur. induction s as [|c s IH]; intros cur; cbn [split_go]; [cbn; lia|].
  destruct (decide (c = sep)); [cbn; lia|apply IH].
Qed.

Section MoreProjectExtras.

Variable import_module : string → Res unit.
Variable create_engine : Value → gmap string Value → Res nat.
Variable call_hook : nat → Res unit.
Variable dict_items : gmap string Value → list (string * Value).

(** X18. [_make] imports the two core modules and then every
    comma-separated entry of [MODULES], stripped; the first import that
    raises ends [_make] with that exception and the project as it was: no
    engine and no session are set.  The entries are never fewer than
    one: for the default [MODULES], the empty string, the module named by
    the empty string is imported. *)
Theorem make_failing_import self it modules e :
  lookup2 (config it) "PROJECT" "MODULES" = Some (VStr modules) →
  first_failure (import_module <$> imported_names modules) = Raise e →
  _make import_module create_engine call_hook dict_items self it = (Raise e, it)
  ∧ imported_names "" = ["flasker.core.flask"; "flasker.core.celery"; ""]
  ∧ (3 ≤ length (imported_names modules))%nat.
Proof.
  intros Hmodules Hfail. split; [|split; [reflexivity|]].
  - unfold imported_names in Hfail. rewrite fmap_app, first_failure_app in Hfail.
    unfold _make. unfold bind at 1.
    rewrite (for_each_lift ["flask"; "celery"]
               (λ name, import_module ("flasker.core." +:+ name))).
    change ((λ name, import_module ("flasker.core." +:+ name))
              <$> ["flask"; "celery"])
      with (import_module <$> ["flasker.core.flask"; "flasker.core.celery"]).
    destruct (first_failure
                (import_module <$> ["flasker.core.flask"; "flasker.core.celery"]))
      as [[]|e'].
    2:{ injection Hfail as ->. reflexivity. }
    rewrite bind_get_state.
    unfold lookup2 in Hmodules.
    destruct (config it !! "PROJECT") as [project|] eqn:Hproject;
      [|discriminate].
    cbn in Hmodules.
    rewrite (bind_getitem _ _ project) by exact Hproject.
    rewrite (bind_getitem _ _ (VStr modules)) by exact Hmodules.
    cbn [value_split]. unfold bind at 1, ret. unfold bind at 1.
    rewrite (for_each_lift (split "," modules) (λ name, import_module (strip name))).
    change ((λ name, import_module (strip name)) <$> split "," modules)
      with ((import_module ∘ strip) <$> split "," modules).
    rewrite list_fmap_compose, Hfail. reflexivity.
  - unfold imported_names. rewrite length_app, length_fmap. cbn [length].
    pose proof (split_go_nonempty "," "" modules). unfold split. lia.
Qed.

End MoreProjectExtras.

(** * The database connection *)

Lemma bind_getattr {B} self name a (k : Attr → M Interp B) it :
  instance_dict it self !! name = Some a →
  bind (getattr self name) k it = k a it.
Proof. intros H. unfold bind, getattr. rewrite H. reflexivity. Qed.

Lemma state_dict_set_dicts f it :
  (0 < length (dicts it))%nat →
  state_dict (set_dicts (alter f state_cell) it) = f (state_dict it).
Proof.
  intros Hlen. rewrite state_dict_alter. unfold state_dict.
  destruct (dicts it !! state_cell) as [d|] eqn:Hd; [reflexivity|].
  apply lookup_ge_None in Hd. unfold state_cell in Hd. lia.
Qed.

Lemma dict_of_items_lookup_None {V} (l : list (string * V)) k :
  dict_of_items l !! k = None ↔ k ∉ l.*1.
Proof.
  rewrite dict_of_items_reverse, <- not_elem_of_list_to_map.
  rewrite fmap_reverse. rewrite elem_of_reverse. reflexivity.
Qed.

Section Database.

Variable create_engine : Value → gmap string Value → Res nat.
Variable dict_items : gmap string Value → list (string * Value).

(** X19. [_setup_database_connection] on a registered project, for any
    order in which the [ENGINE] dict hands out its items.  The engine options
    are the items of the section with lowercased keys: every option is the
    value of a key that lowercases to its name, and a key that no other key
    of the section matches in lower case gives the option its value.  Without
    a key that lowercases to [url] the key error is raised and nothing is
    written; when [create_engine] raises, that exception leaves and nothing
    is written; otherwise [_engine] and [session] are set from the one
    engine, the [url] is passed apart from the other options, and no other
    attribute, the configuration and [sys.path] do not change. *)
Theorem setup_database_outcome self it engine :
  dict_items engine ≡ₚ map_to_list engine →
  objects it !! self = Some state_cell →
  (0 < length (dicts it))%nat →
  config it !! "ENGINE" = Some engine →
  is_Some (state_dict it !! "_query_class") →
  let engine_ops : gmap string Value :=
    dict_of_items ((λ kv, (lower kv.1, kv.2)) <$> dict_items engine) in
  (engine_ops !! "url" = None
   ↔ ∀ key, is_Some (engine !! key) → lower key ≠ "url")
  ∧ (∀ name v, engine_ops !! name = Some v →
       ∃ key, lower key = name ∧ engine !! key = Some v)
  ∧ (∀ key v, engine !! key = Some v →
       (∀ key', is_Some (engine !! key') → lower key' = lower key →
          key' = key) →
       engine_ops !! lower key = Some v)
  ∧ match engine_ops !! "url" with
    | None =>
        _setup_database_connection create_engine dict_items self it
        = (Raise (KeyError "url"), it)
    | Some url =>
        match create_engine url (delete "url" engine_ops) with
        | Raise e =>
            _setup_database_connection create_engine dict_items self it
            = (Raise e, it)
        | Ok handle =>
            ∃ it',
              _setup_database_connection create_engine dict_items self it
              = (Ok tt, it')
              ∧ state_dict it'
                = <["session" := ASession handle]>
                    (<["_engine" := AEngine handle]> (state_dict it))
              ∧ objects it' = objects it
              ∧ config it' = config it
              ∧ sys_path it' = sys_path it
        end
    end.
Proof.
  intros Hitems Hself Hlen Hengine [query Hquery] engine_ops.
  assert (Hin : ∀ name v,
            (name, v) ∈ (λ kv : string * Value, (lower kv.1, kv.2))
                          <$> dict_items engine
            ↔ ∃ key, lower key = name ∧ engine !! key = Some v).
  { intros name v. rewrite Hitems, list_elem_of_fmap. split.
    - intros ([key v'] & [= -> ->] & Hkv%elem_of_map_to_list).
      exists key. split; [reflexivity|exact Hkv].
    - intros (key & <- & Hkv). exists (key, v).
      split; [reflexivity|apply elem_of_map_to_list; exact Hkv]. }
  split; [|split; [|split]].
  - unfold engine_ops. rewrite dict_of_items_lookup_None.
    rewrite <- list_fmap_compose, Hitems. split.
    + intros Hnot key [v Hv] Hlow. apply Hnot.
      apply list_elem_of_fmap. exists (key, v). split; [symmetry; exact Hlow|].
      apply elem_of_map_to_list. exact Hv.
    + intros Hall Hin'.
      apply list_elem_of_fmap in Hin' as ([key v] & Hlow & Hkv).
      apply elem_of_map_to_list in Hkv. apply (Hall key); [eexists; exact Hkv|].
      symmetry. exact Hlow.
  - intros name v Hv. apply Hin. unfold engine_ops in Hv.
    rewrite dict_of_items_reverse in Hv.
    apply elem_of_list_to_map_2 in Hv. rewrite elem_of_reverse in Hv. exact Hv.
  - intros key v Hv Huniq. unfold engine_ops. rewrite dict_of_items_reverse.
    apply elem_of_list_to_map_1'.
    + intros y Hy. rewrite elem_of_reverse in Hy.
      apply Hin in Hy as (key' & Hlow & Hy).
      rewrite (Huniq key' ltac:(eexists; exact Hy) Hlow) in Hy. congruence.
    + rewrite elem_of_reverse. apply Hin. exists key.
      split; [reflexivity|exact Hv].
  - unfold _setup_database_connection. rewrite bind_get_state.
    rewrite (bind_getitem _ _ engine) by exact Hengine.
    fold engine_ops.
    destruct (engine_ops !! "url") as [url|] eqn:Hurl.
    2:{ unfold bind, getitem. rewrite Hurl. reflexivity. }
    rewrite (bind_getitem _ _ url) by exact Hurl.
    destruct (create_engine url (delete "url" engine_ops)) as [handle|e] eqn:Hce.
    2:{ unfold bind at 1, lift_res. reflexivity. }
    rewrite bind_lift_ok.
    rewrite (bind_setattr _ _ _ _ _ state_cell) by exact Hself.
    rewrite (bind_getattr _ _ query).
    2:{ rewrite instance_dict_state_cell by exact Hself.
        rewrite state_dict_set_dicts by exact Hlen.
        rewrite lookup_insert_ne by discriminate. exact Hquery. }
    eexists. split.
    { unfold setattr.
      change (objects (set_dicts _ it)) with (objects it).
      rewrite Hself. reflexivity. }
    split; [|repeat split].
    rewrite state_dict_set_dicts.
    + rewrite state_dict_set_dicts by exact Hlen. reflexivity.
    + unfold set_dicts. cbv beta iota delta [dicts].
      rewrite length_alter. exact Hlen.
Qed.

End Database.

(** * The teardown and the startup hooks *)

Section TeardownFacts.

Variable session_method : SessionCall → Res unit.

Abbreviation dismantle := (_dismantle_database_connections session_method).

(** X20. The teardown of an instance that has a session always ends with
    [remove], called exactly once and last, whatever was raised before; the
    calls before it are nothing, [commit], or [commit], [rollback] and
    possibly [expunge_all].  [commit] is called only when
    [COMMIT_ON_TEARDOWN] is set, [rollback] only after [commit] raised an
    invalid-request error, and an exception of [remove] replaces any
    other. *)
Theorem dismantle_always_removes cfg handle calls :
  ∃ before,
    (dismantle cfg (Some (ASession handle)) calls).2
    = calls ++ before ++ [Remove]
    ∧ (Remove ∉ before)
    ∧ (before = [] ∨ before = [Commit] ∨ before = [Commit; Rollback]
       ∨ before = [Commit; Rollback; ExpungeAll])
    ∧ (Commit ∈ before →
       ∃ flag, lookup2 cfg "PROJECT" "COMMIT_ON_TEARDOWN" = Some flag
               ∧ truthy flag = true)
    ∧ (Rollback ∈ before →
       ∃ e, session_method Commit = Raise e ∧ is_InvalidRequestError e = true)
    ∧ (∀ e, session_method Remove = Raise e →
       (dismantle cfg (Some (ASession handle)) calls).1 = Raise e).
Proof.
  unfold _dismantle_database_connections, try_finally, try_except, session_call,
    bind, getitem, ret, raise, lookup2.
  destruct (cfg !! "PROJECT") as [project|]; cbn [mbind option_bind];
    [destruct (project !! "COMMIT_ON_TEARDOWN") as [flag|];
     [destruct (truthy flag) eqn:Hflag;
      [destruct (session_method Commit) as [[]|e] eqn:Hcommit;
       [|destruct (is_InvalidRequestError e) eqn:Hire;
         [destruct (session_method Rollback) as [[]|e1];
          [destruct (session_method ExpungeAll) as [[]|e2]|]|]]|]|]|].
  all: match goal with
       | |- context [((_ ++ [Commit]) ++ [Rollback]) ++ [ExpungeAll]] =>
           exists [Commit; Rollback; ExpungeAll]
       | |- context [(_ ++ [Commit]) ++ [Rollback]] =>
           exists [Commit; Rollback]
       | |- context [_ ++ [Commit]] => exists [Commit]
       | _ => exists []
       end.
  all: destruct (session_method Remove) as [[]|e'] eqn:Hremove;
    cbn [fst snd]; rewrite <- ?app_assoc.
  all: split; [reflexivity|].
  all: split; [intros Hin;
               repeat (apply elem_of_cons in Hin as [Hin|Hin];
                       [discriminate Hin|]);
               exact (proj1 (elem_of_nil _) Hin)|].
  all: split; [auto|].
  all: split; [intros Hin; first [by eauto|by apply elem_of_nil in Hin]|].
  all: split; [intros Hin;
               first [by eauto
                     |repeat (apply elem_of_cons in Hin as [Hin|Hin];
                              [discriminate Hin|]);
                      by apply elem_of_nil in Hin]|].
  all: intros e0 He0; first [discriminate He0|injection He0 as <-; reflexivity].
Qed.

(** X21. When the commit raises an invalid-request error and the other
    calls succeed, the teardown rolls back, expunges, removes the session and
    re-raises the error of the commit. *)
Theorem dismantle_invalid_request cfg handle calls flag e :
  lookup2 cfg "PROJECT" "COMMIT_ON_TEARDOWN" = Some flag →
  truthy flag = true →
  session_method Commit = Raise e →
  is_InvalidRequestError e = true →
  session_method Rollback = Ok tt →
  session_method ExpungeAll = Ok tt →
  session_method Remove = Ok tt →
  dismantle cfg (Some (ASession handle)) calls
  = (Raise e, calls ++ [Commit; Rollback; ExpungeAll; Remove]).
Proof.
  intros Hflag Htruthy Hcommit Hire Hrollback Hexpunge Hremove.
  unfold lookup2 in Hflag.
  destruct (cfg !! "PROJECT") as [project|] eqn:Hproject; [|discriminate].
  cbn in Hflag.
  unfold _dismantle_database_connections, try_finally, try_except, session_call,
    bind, getitem, ret, raise.
  rewrite Hproject, Hflag, Htruthy, Hcommit, Hire, Hrollback, Hexpunge, Hremove.
  rewrite <- !app_assoc. reflexivity.
Qed.

(** X22. When the commit raises any other error, the teardown neither
    rolls back nor expunges: it removes the session and lets the error
    through. *)
Theorem dismantle_other_error cfg handle calls flag e :
  lookup2 cfg "PROJECT" "COMMIT_ON_TEARDOWN" = Some flag →
  truthy flag = true →
  session_method Commit = Raise e →
  is_InvalidRequestError e = false →
  session_method Remove = Ok tt →
  dismantle cfg (Some (ASession handle)) calls
  = (Raise e, calls ++ [Commit; Remove]).
Proof.
  intros Hflag Htruthy Hcommit Hire Hremove.
  unfold lookup2 in Hflag.
  destruct (cfg !! "PROJECT") as [project|] eqn:Hproject; [|discriminate].
  cbn in Hflag.
  unfold _dismantle_database_connections, try_finally, try_except, session_call,
    bind, getitem, ret, raise.
  rewrite Hproject, Hflag, Htruthy, Hcommit, Hire, Hremove.
  rewrite <- !app_assoc. reflexivity.
Qed.

Lemma dismantle_no_session cfg calls :
  dismantle cfg (Some ANone) calls = (Raise (AttributeError "remove"), calls).
Proof.
  unfold _dismantle_database_connections, try_finally, try_except, session_call,
    bind, getitem, ret, raise.
  destruct (cfg !! "PROJECT") as [project|]; [|reflexivity].
  destruct (project !! "COMMIT_ON_TEARDOWN") as [flag|]; [|reflexivity].
  destruct (truthy flag); reflexivity.
Qed.

End TeardownFacts.

(** X24. [before_startup] appends the hook to the list in the shared
    dict, so every instance sees it at the end of its [_before_startup];
    the registration flag, the objects, the configuration and [sys.path] stay
    as they were. *)
Theorem before_startup_shared it p q func funcs :
  objects it !! p = Some state_cell →
  objects it !! q = Some state_cell →
  (0 < length (dicts it))%nat →
  state_dict it !! "_before_startup" = Some (AHooks funcs) →
  ∃ it',
    before_startup p func it = (Ok tt, it')
    ∧ instance_dict it' q !! "_before_startup" = Some (AHooks (funcs ++ [func]))
    ∧ state_dict it' = <["_before_startup" := AHooks (funcs ++ [func])]>
                         (state_dict it)
    ∧ registered it' = registered it
    ∧ objects it' = objects it
    ∧ config it' = config it
    ∧ sys_path it' = sys_path it.
Proof.
  intros Hp Hq Hlen Hhooks. unfold before_startup.
  rewrite (bind_getattr _ _ (AHooks funcs))
    by (rewrite instance_dict_state_cell by exact Hp; exact Hhooks).
  unfold setattr. rewrite Hp. eexists. split; [reflexivity|].
  assert (Hstate : state_dict
            (set_dicts (alter <["_before_startup":=AHooks (funcs ++ [func])]>
                          state_cell) it)
          = <["_before_startup" := AHooks (funcs ++ [func])]> (state_dict it))
    by (apply state_dict_set_dicts; exact Hlen).
  split.
  { rewrite instance_dict_state_cell by exact Hq. rewrite Hstate.
    apply lookup_insert_eq. }
  split; [exact Hstate|]. split; [|repeat split].
  unfold registered. rewrite Hstate. unfold registered_of.
  rewrite lookup_insert_ne by discriminate. reflexivity.
Qed.

(** X23. After [Project(path, make=False)] the instance has [session] and
    [_engine] set to [None], so a teardown raises the attribute error of
    [remove] (whatever [COMMIT_ON_TEARDOWN] says) without reaching any
    session. *)
Theorem dismantle_before_make read_config os_abspath os_dirname
    os_splitext_root os_sep import_module create_engine call_hook
    dict_items
    session_method tid path it parsed project domain_option subdomain_option
    name calls :
  registered it = false →
  _parse_config read_config path = Ok parsed →
  merge_config (config it) parsed !! "PROJECT" = Some project →
  project !! "DOMAIN" = Some domain_option →
  project !! "SUBDOMAIN" = Some subdomain_option →
  truthy domain_option = true ∨ project !! "NAME" = Some (VStr name) →
  let it' := (Project_init read_config os_abspath os_dirname os_splitext_root
                os_sep import_module create_engine call_hook
                dict_items
                tid (Some path) false it).2 in
  let self := length (objects it) in
  instance_dict it' self !! "session" = Some ANone
  ∧ instance_dict it' self !! "_engine" = Some ANone
  ∧ _dismantle_database_connections session_method (config it')
      (instance_dict it' self !! "session") calls
    = (Raise (AttributeError "remove"), calls).
Proof.
  intros Hreg Hparse Hproject Hdomain Hsub Hname it' self.
  destruct (registration_attributes read_config os_abspath os_dirname
              os_splitext_root os_sep import_module create_engine call_hook
              dict_items
              tid path it parsed project domain_option subdomain_option name
              Hreg Hparse Hproject Hdomain Hsub Hname)
    as [(it1 & Hinit & Hinst & _) _].
  unfold it', self. rewrite Hinit. cbv beta iota delta [snd]. rewrite Hinst.
  assert (Hsession : ∀ r d s (m : gmap string Attr),
            registration_attrs r d s m !! "session" = Some ANone).
  { intros. unfold registration_attrs.
    rewrite !(lookup_insert_ne _ _ "session") by discriminate.
    apply lookup_insert_eq. }
  assert (Hengine : ∀ r d s (m : gmap string Attr),
            registration_attrs r d s m !! "_engine" = Some ANone).
  { intros. unfold registration_attrs.
    rewrite !(lookup_insert_ne _ _ "_engine") by discriminate.
    apply lookup_insert_eq. }
  rewrite Hsession, Hengine. split; [reflexivity|]. split; [reflexivity|].
  apply dismantle_no_session.
Qed.

(** * The conditional facts at concrete inputs *)

Lemma catch_token_provider_down_witness :
  args (demo_request [("access_token", "tok-a")]) !! "access_token"
  = Some "tok-a"
  ∧ catch_token demo_provider_down (demo_request [("access_token", "tok-a")])
      demo_world
    = (Raise (ExternalError "URLError"),
       extend demo_world None
         [AppLog DEBUG "Successfully caught access token.";
          token_info_call "tok-a"]).
Proof.
  split; [reflexivity|].
  apply (catch_token_provider_down demo_provider_down
           (demo_request [("access_token", "tok-a")]) demo_world "tok-a"
           (ExternalError "URLError")); reflexivity.
Defined.

Lemma catch_token_user_info_down_witness :
  demo_provider_half_down ENDPOINT_get_user_info
    [("Authorization", "Bearer tok-a")] = Raise (ExternalError "URLError")
  ∧ catch_token demo_provider_half_down
      (demo_request [("access_token", "tok-a")]) demo_world
    = (Raise (ExternalError "URLError"),
       extend demo_world None
         [AppLog DEBUG "Successfully caught access token.";
          token_info_call "tok-a";
          AppLog DEBUG "Access token is valid.";
          user_info_call "tok-a"]).
Proof.
  split; [reflexivity|].
  apply (catch_token_user_info_down demo_provider_half_down
           (demo_request [("access_token", "tok-a")]) demo_world "tok-a"
           (dict_of_items [("audience", "client-1")])
           (ExternalError "URLError")); reflexivity.
Defined.

Lemma catch_token_no_email_witness :
  demo_provider_no_email ENDPOINT_get_user_info
    [("Authorization", "Bearer tok-a")] = Ok (dict_of_items [("id", "1234")])
  ∧ catch_token demo_provider_no_email
      (demo_request [("access_token", "tok-a")]) demo_world
    = (Raise (KeyError "email"),
       extend demo_world None
         [AppLog DEBUG "Successfully caught access token.";
          token_info_call "tok-a";
          AppLog DEBUG "Access token is valid.";
          user_info_call "tok-a";
          AppLog DEBUG "Gathered user infos successfully."]).
Proof.
  split; [reflexivity|].
  apply (catch_token_no_email demo_provider_no_email
           (demo_request [("access_token", "tok-a")]) demo_world "tok-a"
           (dict_of_items [("audience", "client-1")])
           (dict_of_items [("id", "1234")])); reflexivity.
Defined.


Lemma make_client_id_witness :
  is_ascii (url_root (demo_request [("next", "/home")])) = true
  ∧ py_str PyNone = Ok "None"
  ∧ ∃ query,
      get_google_login_url (demo_request [("next", "/home")])
        (make PyNone demo_world).2
      = Ok (ENDPOINT_get_token_or_code +:+ "?" +:+ query)
      ∧ "client_id=None" ∈ split "&" query.
Proof.
  split; [reflexivity|]. split; [reflexivity|].
  destruct (make_client_id PyNone "None" (demo_request [("next", "/home")])
              demo_world eq_refl
              ltac:(intros v H; vm_compute in H; injection H as <-;
                    reflexivity)
              eq_refl)
    as (query & Hurl & Hin & _).
  exists query. split; [exact Hurl|exact Hin].
Defined.

Lemma load_user_get_id_witness :
  load_user demo_world "b@x.com" = Some (mkUser "b@x.com")
  ∧ load_user demo_world (get_id (mkUser "b@x.com")) = Some (mkUser "b@x.com").
Proof.
  split; [reflexivity|].
  apply (load_user_get_id "a@x.com,b@x.com" demo_world "b@x.com"
           (mkUser "b@x.com")); reflexivity.
Defined.

Lemma authorized_emails_clean_witness :
  "b@x.com" ∈ authorized_emails " a@x.com , ,b@x.com ,"
  ∧ strip "b@x.com" = "b@x.com".
Proof.
  assert (Hin : "b@x.com" ∈ authorized_emails " a@x.com , ,b@x.com ,").
  { vm_compute. right. left. }
  split; [exact Hin|].
  apply (authorized_emails_clean " a@x.com , ,b@x.com ," "b@x.com" Hin).
Defined.

Lemma Project_without_path_witness :
  registered initial_interp = false
  ∧ demo_Project_init 0%nat None true initial_interp
    = (Raise (ProjectImportError no_path_message), enter 0 initial_interp).
Proof.
  split; [reflexivity|].
  exact (proj1 (Project_without_path demo_read_config
                  (λ path, "/srv/" +:+ path) (λ _, "/srv") (λ _, "demo")
                  "/"%char (λ _, Ok tt) (λ _ _, Ok 1%nat) (λ _, Ok tt)
                  demo_dict_items
                  0%nat true initial_interp eq_refl)).
Defined.

Lemma Project_init_returns_witness :
  (demo_Project_init 0%nat (Some "demo.cfg") false initial_interp).1 = Ok 0%nat
  ∧ registered
      (demo_Project_init 0%nat (Some "demo.cfg") false initial_interp).2 = true.
Proof.
  split; [reflexivity|].
  refine (proj1 (proj2 (Project_init_returns demo_read_config
                  (λ path, "/srv/" +:+ path) (λ _, "/srv") (λ _, "demo")
                  "/"%char (λ _, Ok tt) (λ _ _, Ok 1%nat) (λ _, Ok tt)
                  demo_dict_items
                  0%nat (Some "demo.cfg") false initial_interp 0%nat _ _))).
  vm_compute. reflexivity.
Defined.

Lemma Project_init_attributes_witness :
  registered initial_interp = false
  ∧ ∃ it',
      demo_Project_init 0%nat (Some "demo.cfg") false initial_interp
      = (Ok 0%nat, it')
      ∧ instance_dict it' 0 !! "domain" = Some (AVal (VStr "demo")).
Proof.
  split; [reflexivity|].
  destruct (Project_init_attributes demo_read_config
              (λ path, "/srv/" +:+ path) (λ _, "/srv") (λ _, "demo")
              "/"%char (λ _, Ok tt) (λ _ _, Ok 1%nat) (λ _, Ok tt)
              demo_dict_items
              0%nat "demo.cfg" initial_interp
              (convert_sections (dict_of_items [
                 ("PROJECT", dict_of_items [
                    ("NAME", "Demo");
                    ("AUTHORIZED_EMAILS", "a@x.com,b@x.com")])]))
              (dict_of_items [
                 ("NAME", VStr "Demo"); ("DOMAIN", VStr "");
                 ("SUBDOMAIN", VStr ""); ("MODULES", VStr "");
                 ("FLASK_ROOT_FOLDER", VStr "app");
                 ("FLASK_STATIC_FOLDER", VStr "static");
                 ("FLASK_TEMPLATE_FOLDER", VStr "templates");
                 ("COMMIT_ON_TEARDOWN", VBool true);
                 ("AUTHORIZED_EMAILS", VStr "a@x.com,b@x.com")])
              (VStr "") (VStr "")
              eq_refl eq_refl eq_refl eq_refl eq_refl)
    as [Hreturns _].
  destruct (Hreturns "Demo" (or_intror eq_refl)) as (it' & Hinit & Hinst & _).
  exists it'. split; [exact Hinit|].
  change (instance_dict it' (length (objects initial_interp)) !! "domain"
          = Some (AVal (VStr "demo"))).
  rewrite Hinst. vm_compute. reflexivity.
Defined.

Lemma make_failing_import_witness :
  lookup2 (config demo_registered) "PROJECT" "MODULES" = Some (VStr "")
  ∧ _make demo_import (λ _ _, Ok 1%nat) (λ _, Ok tt)
    demo_dict_items 0%nat demo_registered
    = (Raise (ExternalError "ValueError"), demo_registered).
Proof.
  split; [reflexivity|].
  exact (proj1 (make_failing_import demo_import (λ _ _, Ok 1%nat) (λ _, Ok tt)
                  demo_dict_items
                  0%nat demo_registered "" (ExternalError "ValueError")
                  eq_refl eq_refl)).
Defined.

Lemma setup_database_outcome_witness :
  config demo_registered !! "ENGINE"
  = Some (dict_of_items [("URL", VStr "sqlite://")])
  ∧ ∃ it',
      _setup_database_connection (λ _ _, Ok 1%nat) demo_dict_items 0%nat
        demo_registered
      = (Ok tt, it')
      ∧ state_dict it'
        = <["session" := ASession 1]>
            (<["_engine" := AEngine 1]> (state_dict demo_registered)).
Proof.
  split; [reflexivity|].
  pose proof (proj2 (proj2 (proj2
                (setup_database_outcome (λ _ _, Ok 1%nat) demo_dict_items
                   0%nat demo_registered
                   (dict_of_items [("URL", VStr "sqlite://")])
                   ltac:(reflexivity) eq_refl ltac:(vm_compute; lia) eq_refl
                   (ex_intro _ AQueryClass eq_refl))))) as H.
  destruct H as (it' & Hrun & Hstate & _).
  exists it'. split; [exact Hrun|exact Hstate].
Defined.

Lemma dismantle_invalid_request_witness :
  demo_session_conflict Commit = Raise InvalidRequestError
  ∧ _dismantle_database_connections demo_session_conflict default_config
      (Some (ASession 1)) []
    = (Raise InvalidRequestError, [Commit; Rollback; ExpungeAll; Remove]).
Proof.
  split; [reflexivity|].
  apply (dismantle_invalid_request demo_session_conflict default_config 1%nat
           [] (VBool true) InvalidRequestError); reflexivity.
Defined.

Lemma dismantle_other_error_witness :
  demo_session_broken Commit = Raise (ExternalError "OperationalError")
  ∧ _dismantle_database_connections demo_session_broken default_config
      (Some (ASession 1)) []
    = (Raise (ExternalError "OperationalError"), [Commit; Remove]).
Proof.
  split; [reflexivity|].
  apply (dismantle_other_error demo_session_broken default_config 1%nat
           [] (VBool true) (ExternalError "OperationalError")); reflexivity.
Defined.

Lemma before_startup_shared_witness :
  state_dict demo_registered !! "_before_startup" = Some (AHooks [])
  ∧ ∃ it',
      before_startup 0 7 demo_registered = (Ok tt, it')
      ∧ instance_dict it' 0 !! "_before_startup" = Some (AHooks [7%nat]).
Proof.
  split; [reflexivity|].
  destruct (before_startup_shared demo_registered 0%nat 0%nat 7%nat []
              eq_refl eq_refl ltac:(vm_compute; lia) eq_refl)
    as (it' & Hrun & Hseen & _).
  exists it'. split; [exact Hrun|exact Hseen].
Defined.

Lemma dismantle_before_make_witness :
  registered initial_interp = false
  ∧ _dismantle_database_connections demo_session_conflict
      (config (demo_Project_init 0%nat (Some "demo.cfg") false
                 initial_interp).2)
      (instance_dict
         (demo_Project_init 0%nat (Some "demo.cfg") false initial_interp).2
         0 !! "session") []
    = (Raise (AttributeError "remove"), []).
Proof.
  split; [reflexivity|].
  exact (proj2 (proj2 (dismantle_before_make demo_read_config
              (λ path, "/srv/" +:+ path) (λ _, "/srv") (λ _, "demo")
              "/"%char (λ _, Ok tt) (λ _ _, Ok 1%nat) (λ _, Ok tt)
              demo_dict_items
              demo_session_conflict
              0%nat "demo.cfg" initial_interp
              (convert_sections (dict_of_items [
                 ("PROJECT", dict_of_items [
                    ("NAME", "Demo");
                    ("AUTHORIZED_EMAILS", "a@x.com,b@x.com")])]))
              (dict_of_items [
                 ("NAME", VStr "Demo"); ("DOMAIN", VStr "");
                 ("SUBDOMAIN", VStr ""); ("MODULES", VStr "");
                 ("FLASK_ROOT_FOLDER", VStr "app");
                 ("FLASK_STATIC_FOLDER", VStr "static");
                 ("FLASK_TEMPLATE_FOLDER", VStr "templates");
                 ("COMMIT_ON_TEARDOWN", VBool true);
                 ("AUTHORIZED_EMAILS", VStr "a@x.com,b@x.com")])
              (VStr "") (VStr "") "Demo" []
              eq_refl eq_refl eq_refl eq_refl eq_refl
              (or_intror eq_refl)))).
Defined.
